(** * Messenger backend: the Cassandra storage and access-pattern layer

    A shallow embedding of [app/models/cassandra_models.py] (the classes
    [MessageModel] and [ConversationModel]), of the part of
    [app/controllers/message_controller.py] that resolves the conversation
    of a send, and of the tables declared in [scripts/setup_db.py].

    - A table is a finite map from its primary key to its regular columns:
      an [INSERT] or [UPDATE] on a key that is present overwrites the
      columns it names, on a key that is absent it creates the row.
    - A read of one partition returns its rows in the clustering order the
      table was declared with.
    - The store is passed explicitly: a writing method takes the store and
      returns the new one.  The clock reading ([datetime.utcnow()]) and the
      fresh identifier ([uuid.uuid4()]) of a call are arguments.
    - UUIDs are their 128-bit values ([N]), timestamps are integers at the
      resolution of the store, conversation ids, pages and limits are
      Python integers ([Z]). *)

From stdpp Require Import gmap strings list fin_maps sorting.

Local Open Scope Z_scope.

Abbreviation UUID := N (only parsing).
Abbreviation Timestamp := Z (only parsing).

(** ** Python list primitives used by the models *)

Module Py.

(** An index of a slice, brought into [0, n] the way [l[i:j]] does it:
    a negative index counts from the end, then both are clamped. *)
Definition clamp_index (n i : Z) : Z :=
  if i <? 0 then Z.max (i + n) 0 else Z.min i n.

(** [l[start:stop]] *)
Definition slice {A} (l : list A) (start stop : Z) : list A :=
  let n := Z.of_nat (length l) in
  let lo := clamp_index n start in
  let hi := clamp_index n stop in
  take (Z.to_nat (hi - lo)) (drop (Z.to_nat lo) l).

(** [l.sort(key=key, reverse=True)]: descending by key, and stable
    (elements with equal keys keep their order). *)
Fixpoint insert_desc {A} (key : A → Z) (x : A) (l : list A) : list A :=
  match l with
  | [] => [x]
  | y :: l' =>
      if key x <? key y then y :: insert_desc key x l' else x :: y :: l'
  end.

Definition sort_reverse {A} (key : A → Z) (l : list A) : list A :=
  foldr (insert_desc key) [] l.

(** [v or d] for an integer or [None]: [None] and [0] are falsy. *)
Definition or_else (v : option Z) (d : Z) : Z :=
  match v with
  | Some x => if x =? 0 then d else x
  | None => d
  end.

End Py.

(** ** The tables of [scripts/setup_db.py] and the statements run on them *)

Module Cassandra.

(** Rows as [dict_factory] hands them to the models. *)
Record MessageRow := {
  msg_conversation_id : Z;
  msg_timestamp : Timestamp;
  msg_message_id : UUID;
  msg_sender_id : UUID;
  msg_receiver_id : UUID;
  msg_content : string }.

Record ConversationRow := {
  conv_conversation_id : Z;
  conv_user1_id : option UUID;
  conv_user2_id : option UUID;
  conv_created_at : option Timestamp;
  conv_last_message_at : option Timestamp;
  conv_last_message_content : option string }.

Record ConversationByUserRow := {
  cbu_user_id : UUID;
  cbu_conversation_id : Z;
  cbu_other_user_id : UUID;
  cbu_last_message_at : Timestamp;
  cbu_last_message_content : string }.

(** Regular (non-key) columns of [conversations]; each may be null. *)
Record ConversationCols := {
  col_user1_id : option UUID;
  col_user2_id : option UUID;
  col_created_at : option Timestamp;
  col_last_message_at : option Timestamp;
  col_last_message_content : option string }.

Definition null_cols : ConversationCols :=
  {| col_user1_id := None; col_user2_id := None; col_created_at := None;
     col_last_message_at := None; col_last_message_content := None |}.

(** - [messages]: PRIMARY KEY (conversation_id, timestamp, message_id),
      CLUSTERING ORDER BY (timestamp DESC, message_id ASC);
    - [messages_by_user]: PRIMARY KEY ((user_id), conversation_id,
      timestamp, message_id);
    - [conversations]: PRIMARY KEY (conversation_id);
    - [conversations_by_user]: PRIMARY KEY (user_id, last_message_at,
      conversation_id), CLUSTERING ORDER BY (last_message_at DESC,
      conversation_id ASC). *)
Record Store := {
  messages : gmap (Z * Timestamp * UUID) (UUID * UUID * string);
  messages_by_user :
    gmap (UUID * Z * Timestamp * UUID) (UUID * UUID * string);
  conversations : gmap Z ConversationCols;
  conversations_by_user : gmap (UUID * Timestamp * Z) (UUID * string) }.

Definition empty_store : Store :=
  {| messages := ∅; messages_by_user := ∅; conversations := ∅;
     conversations_by_user := ∅ |}.

Definition message_row
    (kv : Z * Timestamp * UUID * (UUID * UUID * string)) : MessageRow :=
  let '(c, t, m, (s, r, txt)) := kv in
  {| msg_conversation_id := c; msg_timestamp := t; msg_message_id := m;
     msg_sender_id := s; msg_receiver_id := r; msg_content := txt |}.

Definition conversation_row (kv : Z * ConversationCols) : ConversationRow :=
  {| conv_conversation_id := kv.1;
     conv_user1_id := col_user1_id kv.2;
     conv_user2_id := col_user2_id kv.2;
     conv_created_at := col_created_at kv.2;
     conv_last_message_at := col_last_message_at kv.2;
     conv_last_message_content := col_last_message_content kv.2 |}.

Definition conversation_by_user_row
    (kv : UUID * Timestamp * Z * (UUID * string)) : ConversationByUserRow :=
  let '(u, t, c, (o, txt)) := kv in
  {| cbu_user_id := u; cbu_conversation_id := c; cbu_other_user_id := o;
     cbu_last_message_at := t; cbu_last_message_content := txt |}.

(** Clustering order of [messages]: timestamp DESC, message_id ASC. *)
Definition messages_order (a b : MessageRow) : Prop :=
  msg_timestamp b < msg_timestamp a
  ∨ (msg_timestamp a = msg_timestamp b
     ∧ (msg_message_id a ≤ msg_message_id b)%N).

(** Clustering order of [conversations_by_user]: last_message_at DESC,
    conversation_id ASC. *)
Definition conversations_by_user_order
    (a b : ConversationByUserRow) : Prop :=
  cbu_last_message_at b < cbu_last_message_at a
  ∨ (cbu_last_message_at a = cbu_last_message_at b
     ∧ cbu_conversation_id a ≤ cbu_conversation_id b).

#[global] Instance messages_order_dec a b : Decision (messages_order a b).
Proof. unfold messages_order. apply _. Defined.

#[global] Instance conversations_by_user_order_dec a b :
  Decision (conversations_by_user_order a b).
Proof. unfold conversations_by_user_order. apply _. Defined.

(** INSERT INTO messages (conversation_id, timestamp, message_id,
    sender_id, receiver_id, content) VALUES (...) *)
Definition insert_into_messages (db : Store)
    (conversation_id : Z) (timestamp : Timestamp) (message_id : UUID)
    (sender_id receiver_id : UUID) (content : string) : Store :=
  {| messages :=
       <[(conversation_id, timestamp, message_id) :=
           (sender_id, receiver_id, content)]> (messages db);
     messages_by_user := messages_by_user db;
     conversations := conversations db;
     conversations_by_user := conversations_by_user db |}.

(** INSERT INTO messages_by_user (user_id, conversation_id, timestamp,
    message_id, sender_id, receiver_id, content) VALUES (...) *)
Definition insert_into_messages_by_user (db : Store)
    (user_id : UUID) (conversation_id : Z) (timestamp : Timestamp)
    (message_id sender_id receiver_id : UUID) (content : string) : Store :=
  {| messages := messages db;
     messages_by_user :=
       <[(user_id, conversation_id, timestamp, message_id) :=
           (sender_id, receiver_id, content)]> (messages_by_user db);
     conversations := conversations db;
     conversations_by_user := conversations_by_user db |}.

(** UPDATE conversations SET last_message_at = .., last_message_content
    = .. WHERE conversation_id = ..   (creates the row when it is
    absent, with its other columns null) *)
Definition update_conversations (db : Store)
    (last_message_at : Timestamp) (last_message_content : string)
    (conversation_id : Z) : Store :=
  let old := default null_cols (conversations db !! conversation_id) in
  {| messages := messages db;
     messages_by_user := messages_by_user db;
     conversations :=
       <[conversation_id :=
           {| col_user1_id := col_user1_id old;
              col_user2_id := col_user2_id old;
              col_created_at := col_created_at old;
              col_last_message_at := Some last_message_at;
              col_last_message_content := Some last_message_content |}]>
         (conversations db);
     conversations_by_user := conversations_by_user db |}.

(** INSERT INTO conversations_by_user (user_id, conversation_id,
    other_user_id, last_message_at, last_message_content) VALUES (...) *)
Definition insert_into_conversations_by_user (db : Store)
    (user_id : UUID) (conversation_id : Z) (other_user_id : UUID)
    (last_message_at : Timestamp) (last_message_content : string) : Store :=
  {| messages := messages db;
     messages_by_user := messages_by_user db;
     conversations := conversations db;
     conversations_by_user :=
       <[(user_id, last_message_at, conversation_id) :=
           (other_user_id, last_message_content)]>
         (conversations_by_user db) |}.

(** INSERT INTO conversations (conversation_id, user1_id, user2_id,
    created_at, last_message_at) VALUES (...)
    ([last_message_content] is not named: it keeps its value, null in a
    new row) *)
Definition insert_into_conversations (db : Store)
    (conversation_id : Z) (user1_id user2_id : UUID)
    (created_at last_message_at : Timestamp) : Store :=
  let old := default null_cols (conversations db !! conversation_id) in
  {| messages := messages db;
     messages_by_user := messages_by_user db;
     conversations :=
       <[conversation_id :=
           {| col_user1_id := Some user1_id;
              col_user2_id := Some user2_id;
              col_created_at := Some created_at;
              col_last_message_at := Some last_message_at;
              col_last_message_content := col_last_message_content old |}]>
         (conversations db);
     conversations_by_user := conversations_by_user db |}.

(** SELECT ... FROM messages WHERE conversation_id = .. *)
Definition select_messages (db : Store) (conversation_id : Z)
    : list MessageRow :=
  merge_sort messages_order
    (filter (λ r, msg_conversation_id r = conversation_id)
            (message_row <$> map_to_list (messages db))).

(** SELECT ... FROM conversations_by_user WHERE user_id = .. *)
Definition select_conversations_by_user (db : Store) (user_id : UUID)
    : list ConversationByUserRow :=
  merge_sort conversations_by_user_order
    (filter (λ r, cbu_user_id r = user_id)
            (conversation_by_user_row
               <$> map_to_list (conversations_by_user db))).

(** SELECT * FROM conversations WHERE conversation_id = .. *)
Definition select_conversation (db : Store) (conversation_id : Z)
    : list ConversationRow :=
  match conversations db !! conversation_id with
  | Some cols => [conversation_row (conversation_id, cols)]
  | None => []
  end.

(** SELECT * FROM conversations WHERE user1_id = .. AND user2_id = ..
    ALLOW FILTERING   (a scan of the whole table; the rows come in the
    order of the scan, which is a function of the table alone) *)
Definition select_conversations_of_pair (db : Store)
    (user1_id user2_id : UUID) : list ConversationRow :=
  filter (λ r, conv_user1_id r = Some user1_id
               ∧ conv_user2_id r = Some user2_id)
         (conversation_row <$> map_to_list (conversations db)).

(** SELECT MAX(conversation_id) as max_id FROM conversations
    (one row; [max_id] is null on an empty table) *)
Definition select_max_conversation_id (db : Store) : option Z :=
  foldr (λ k acc, Some (from_option (Z.max k) k acc)) None
        (map_to_list (conversations db)).*1.

End Cassandra.

Import Cassandra.

(** ** [MessageModel] *)

Module MessageModel.

(** The dictionary [create_message] returns. *)
Record CreatedMessage := {
  cm_id : UUID;
  cm_conversation_id : Z;
  cm_sender_id : UUID;
  cm_receiver_id : UUID;
  cm_content : string;
  cm_created_at : Timestamp;
  cm_read_at : option Timestamp }.

(** An entry of the [data] list of a page of messages. *)
Record Message := {
  m_id : UUID;
  m_conversation_id : Z;
  m_sender_id : UUID;
  m_receiver_id : UUID;
  m_content : string;
  m_created_at : Timestamp }.

(** The dictionary a paginated read returns. *)
Record Paged (A : Type) := {
  total : Z;
  page : Z;
  limit : Z;
  data : list A }.
#[global] Arguments total {A} _.
#[global] Arguments page {A} _.
#[global] Arguments limit {A} _.
#[global] Arguments data {A} _.

Definition format_message (msg : MessageRow) : Message :=
  {| m_id := msg_message_id msg;
     m_conversation_id := msg_conversation_id msg;
     m_sender_id := msg_sender_id msg;
     m_receiver_id := msg_receiver_id msg;
     m_content := msg_content msg;
     m_created_at := msg_timestamp msg |}.

(** [timestamp] is the reading of [datetime.utcnow()] and [message_id]
    the value of [uuid.uuid4()] in this call. *)
Definition create_message (db : Store)
    (timestamp : Timestamp) (message_id : UUID)
    (sender_id receiver_id : UUID) (content : string)
    (conversation_id : Z) : CreatedMessage * Store :=
  let db :=
    insert_into_messages db conversation_id timestamp message_id
      sender_id receiver_id content in
  let db :=
    foldl (λ db user_id,
             insert_into_messages_by_user db user_id conversation_id
               timestamp message_id sender_id receiver_id content)
          db [sender_id; receiver_id] in
  let db := update_conversations db timestamp content conversation_id in
  let db :=
    foldl (λ db user_id,
             let other_user_id :=
               if decide (user_id = sender_id) then receiver_id
               else sender_id in
             insert_into_conversations_by_user db user_id conversation_id
               other_user_id timestamp content)
          db [sender_id; receiver_id] in
  ({| cm_id := message_id;
      cm_conversation_id := conversation_id;
      cm_sender_id := sender_id;
      cm_receiver_id := receiver_id;
      cm_content := content;
      cm_created_at := timestamp;
      cm_read_at := None |}, db).

Definition get_conversation_messages (db : Store)
    (conversation_id : Z) (page limit : Z) : Paged Message :=
  let result := select_messages db conversation_id in
  let all_messages := result in
  let total := Z.of_nat (length all_messages) in
  let all_messages := Py.sort_reverse msg_timestamp all_messages in
  let start_idx := (page - 1) * limit in
  let end_idx := start_idx + limit in
  let paginated_messages := Py.slice all_messages start_idx end_idx in
  {| total := total; page := page; limit := limit;
     data := format_message <$> paginated_messages |}.

Definition get_messages_before_timestamp (db : Store)
    (conversation_id : Z) (before_timestamp : Timestamp)
    (page limit : Z) : Paged Message :=
  let result := select_messages db conversation_id in
  let filtered_messages :=
    filter (λ msg, msg_timestamp msg < before_timestamp) result in
  let total := Z.of_nat (length filtered_messages) in
  let filtered_messages :=
    Py.sort_reverse msg_timestamp filtered_messages in
  let start_idx := (page - 1) * limit in
  let end_idx := start_idx + limit in
  let paginated_messages := Py.slice filtered_messages start_idx end_idx in
  {| total := total; page := page; limit := limit;
     data := format_message <$> paginated_messages |}.

End MessageModel.

(** ** [ConversationModel] *)

Module ConversationModel.

Import MessageModel.

(** The dictionary of [get_conversation] and of the entries of
    [get_user_conversations]. *)
Record Conversation := {
  c_id : Z;
  c_user1_id : option UUID;
  c_user2_id : option UUID;
  c_last_message_at : option Timestamp;
  c_last_message_content : option string }.

(** The dictionary of [create_or_get_conversation]. *)
Record ConversationFull := {
  cf_id : Z;
  cf_user1_id : option UUID;
  cf_user2_id : option UUID;
  cf_created_at : option Timestamp;
  cf_last_message_at : option Timestamp;
  cf_last_message_content : option string }.

Definition format_conversation (conv : ConversationRow) : Conversation :=
  {| c_id := conv_conversation_id conv;
     c_user1_id := conv_user1_id conv;
     c_user2_id := conv_user2_id conv;
     c_last_message_at := conv_last_message_at conv;
     c_last_message_content := conv_last_message_content conv |}.

Definition get_user_conversations (db : Store)
    (user_id : UUID) (page limit : Z) : Paged Conversation :=
  let result := select_conversations_by_user db user_id in
  let all_conversations := result in
  let total := Z.of_nat (length all_conversations) in
  let start_idx := (page - 1) * limit in
  let end_idx := start_idx + limit in
  let paginated_conversations :=
    Py.slice all_conversations start_idx end_idx in
  let formatted_conversations :=
    foldl (λ formatted conv,
             match select_conversation db (cbu_conversation_id conv) with
             | detail :: _ => formatted ++ [format_conversation detail]
             | [] => formatted
             end)
          [] paginated_conversations in
  {| total := total; page := page; limit := limit;
     data := formatted_conversations |}.

Definition get_conversation (db : Store) (conversation_id : Z)
    : option Conversation :=
  match select_conversation db conversation_id with
  | [] => None
  | conv :: _ => Some (format_conversation conv)
  end.

(** [now] is the reading of [datetime.utcnow()], used only when a row
    is created. *)
Definition create_or_get_conversation (db : Store) (now : Timestamp)
    (user1_id user2_id : UUID) : ConversationFull * Store :=
  let result := select_conversations_of_pair db user1_id user2_id in
  let result :=
    match result with
    | [] => select_conversations_of_pair db user2_id user1_id
    | _ :: _ => result
    end in
  match result with
  | conv :: _ =>
      ({| cf_id := conv_conversation_id conv;
          cf_user1_id := conv_user1_id conv;
          cf_user2_id := conv_user2_id conv;
          cf_created_at := conv_created_at conv;
          cf_last_message_at := conv_last_message_at conv;
          cf_last_message_content := conv_last_message_content conv |},
       db)
  | [] =>
      let max_id := select_max_conversation_id db in
      let new_id := Py.or_else max_id 0 + 1 in
      let db := insert_into_conversations db new_id user1_id user2_id
                  now now in
      ({| cf_id := new_id;
          cf_user1_id := Some user1_id;
          cf_user2_id := Some user2_id;
          cf_created_at := Some now;
          cf_last_message_at := Some now;
          cf_last_message_content := None |}, db)
  end.

End ConversationModel.

(** ** [MessageController.send_message] *)

Module MessageController.

Import MessageModel ConversationModel.

(** The request names a conversation or leaves it out ([None]; an id
    of [0] is falsy and counts as left out).  [now_conv] is the clock
    reading inside [create_or_get_conversation], [now_msg] the one
    inside [create_message]. *)
Definition send_message (db : Store)
    (now_conv now_msg : Timestamp) (message_id : UUID)
    (sender_id receiver_id : UUID) (content : string)
    (conversation_id : option Z) : CreatedMessage * Store :=
  let '(conversation_id, db) :=
    match conversation_id with
    | Some c =>
        if c =? 0
        then let '(conversation, db) :=
               create_or_get_conversation db now_conv sender_id receiver_id
             in (cf_id conversation, db)
        else (c, db)
    | None =>
        let '(conversation, db) :=
          create_or_get_conversation db now_conv sender_id receiver_id
        in (cf_id conversation, db)
    end in
  create_message db now_msg message_id sender_id receiver_id content
    conversation_id.

End MessageController.

Import MessageModel ConversationModel MessageController.

(** ** Vocabulary of the properties *)

(** The descending order on keys, as a relation on elements. *)
Definition key_desc {A} (key : A → Z) : relation A := λ a b, key b ≤ key a.

(** The order of the rows of a conversation as a reader expects it: newer
    first, and at one timestamp the smaller message id first. *)
Definition newest_first (a b : MessageRow) : Prop :=
  msg_timestamp b < msg_timestamp a
  ∨ (msg_timestamp a = msg_timestamp b
     ∧ (msg_message_id a < msg_message_id b)%N).

(** The same order on the entries of a page. *)
Definition message_before (a b : Message) : Prop :=
  m_created_at b < m_created_at a
  ∨ (m_created_at a = m_created_at b ∧ (m_id a < m_id b)%N).

(** The [data] of pages [1 .. n] of a paginated read, one after the other. *)
Definition all_pages {A} (get : Z → Paged A) (n : nat) : list A :=
  flat_map (λ p, data (get (Z.of_nat p))) (seq 1 n).

(** The matching sets of the three paginated reads, as sets of rows of
    the tables. *)
Definition messages_of (db : Store) (conversation_id : Z)
    : gmap (Z * Z * N) (N * N * string) :=
  filter (λ kv, kv.1.1.1 = conversation_id) (messages db).

Definition messages_of_before (db : Store) (conversation_id : Z)
    (before_timestamp : Z) : gmap (Z * Z * N) (N * N * string) :=
  filter (λ kv, kv.1.1.1 = conversation_id ∧ kv.1.1.2 < before_timestamp)
         (messages db).

Definition index_entries_of (db : Store) (user_id : N)
    : gmap (N * Z * Z) (N * string) :=
  filter (λ kv, kv.1.1.1 = user_id) (conversations_by_user db).

(** A row of [conversations] is a conversation of the unordered pair
    [{a, b}]. *)
Definition of_pair (a b : N) (cols : ConversationCols) : Prop :=
  (col_user1_id cols = Some a ∧ col_user2_id cols = Some b)
  ∨ (col_user1_id cols = Some b ∧ col_user2_id cols = Some a).

(** The invariant of the data model: at most one conversation row per
    unordered pair of participants. *)
Definition one_conversation_per_pair (db : Store) : Prop :=
  ∀ i j ci cj a b,
    conversations db !! i = Some ci → conversations db !! j = Some cj →
    of_pair a b ci → of_pair a b cj → i = j.

(** The stores that calls of the two writing methods, one after the
    other, produce from the empty store. *)
Inductive reachable : Store → Prop :=
| reachable_empty : reachable empty_store
| reachable_create_or_get db now a b :
    reachable db → reachable (create_or_get_conversation db now a b).2
| reachable_create_message db now mid s r txt c :
    reachable db → reachable (create_message db now mid s r txt c).2.

(** The conversation row a reader gets for the columns of row [id]. *)
Definition conversation_of (id : Z) (cols : ConversationCols) : Conversation :=
  {| c_id := id;
     c_user1_id := col_user1_id cols;
     c_user2_id := col_user2_id cols;
     c_last_message_at := col_last_message_at cols;
     c_last_message_content := col_last_message_content cols |}.

(** A request that asks for nothing, or for a page past the last one. *)
Definition out_of_range (total page limit : Z) : Prop :=
  page = 0 ∨ limit = 0
  ∨ (1 ≤ page ∧ 1 ≤ limit ∧ total ≤ (page - 1) * limit).

(** The summaries [get_user_conversations] assembles for a list of index
    entries: one for each entry whose conversation row exists. *)
Definition summaries (db : Store) (entries : list ConversationByUserRow)
    : list Conversation :=
  omap (λ conv, conversation_of (cbu_conversation_id conv)
                  <$> conversations db !! cbu_conversation_id conv)
       entries.

(** ** Stores used as examples *)

Definition U1 : N := 11.
Definition U2 : N := 22.

(** U1 sends "hi" to U2 with no conversation named (clock 100, then 101),
    then U2 answers "hello" in conversation 1 (clock 201). *)
Definition store_after_hi : Store :=
  (send_message empty_store 100 101 1%N U1 U2 "hi" None).2.

Definition store_after_hello : Store :=
  (send_message store_after_hi 200 201 2%N U2 U1 "hello" (Some 1)).2.

(** An index entry whose conversation row is missing. *)
Definition store_dangling_index : Store :=
  insert_into_conversations_by_user empty_store U1 7 U2 100 "hi".

(** Two rows for one pair of users, one in each orientation. *)
Definition store_two_orientations : Store :=
  insert_into_conversations
    (insert_into_conversations empty_store 1 U1 U2 100 100) 2 U2 U1 200 200.

(** ** Invariants of the denormalised tables *)

(** Every message of [messages] has its two copies in
    [messages_by_user], one under the sender and one under the receiver. *)
Definition fanned_out (db : Store) : Prop :=
  ∀ c t m s r txt,
    messages db !! (c, t, m) = Some (s, r, txt) →
    messages_by_user db !! (s, c, t, m) = Some (s, r, txt)
    ∧ messages_by_user db !! (r, c, t, m) = Some (s, r, txt).

(** Every entry of [conversations_by_user] names a conversation that has
    its row in [conversations]. *)
Definition index_backed (db : Store) : Prop :=
  ∀ u t c entry,
    conversations_by_user db !! (u, t, c) = Some entry →
    is_Some (conversations db !! c).

(** ** Waiting for the cluster *)

Module Connection.

(** How [wait_for_cassandra] ends: it returns the cluster of the attempt
    that connected, or raises. *)
Inductive Waited :=
| Ready (attempt : nat)
| Failed (message : string).

(** [scripts/setup_db.py], [wait_for_cassandra]: the [for] loop over the
    attempts that are left.  [ready attempt] tells whether the [try]
    block of that attempt runs through; [slept] counts the seconds of
    [time.sleep] so far. *)
Fixpoint wait_attempts (ready : nat → bool) (attempts : list nat)
    (slept : Z) : Waited * Z :=
  match attempts with
  | [] => (Failed "Failed to connect to Cassandra", slept)
  | attempt :: attempts =>
      if ready attempt then (Ready attempt, slept)
      else wait_attempts ready attempts (slept + 5)
  end.

Definition wait_for_cassandra (ready : nat → bool) : Waited * Z :=
  wait_attempts ready (seq 0 10) 0.

(** The fields of [CassandraClient] that [__init__] sets; [session] tells
    whether a session is open. *)
Record CassandraClient := {
  host : string;
  port : Z;
  keyspace : string;
  max_retries : Z;
  retry_delay : Z;
  session : bool }.

(** How [connect_with_retry] ends when it ends: it returns with the
    session open, or [time.sleep] raises on a negative delay. *)
Inductive Retried :=
| Returned (self : CassandraClient) (retries : nat) (slept : Z)
| SleepRaised (retries : nat).

(** [app/db/cassandra_client.py], [connect_with_retry]: the [while True]
    loop, run for at most [fuel] rounds ([None]: still looping).
    [connects n] tells whether the call of [connect] made after [n]
    failures succeeds. *)
Fixpoint connect_with_retry_from (self : CassandraClient)
    (connects : nat → bool) (fuel : nat) (retries : nat) (slept : Z)
    : option Retried :=
  match fuel with
  | O => None
  | S fuel =>
      if connects retries
      then Some (Returned
                   {| host := host self; port := port self;
                      keyspace := keyspace self;
                      max_retries := max_retries self;
                      retry_delay := retry_delay self;
                      session := true |} retries slept)
      else
        let retries := S retries in
        if retry_delay self <? 0 then Some (SleepRaised retries)
        else connect_with_retry_from self connects fuel retries
               (slept + retry_delay self)
  end.

Definition connect_with_retry (self : CassandraClient)
    (connects : nat → bool) (fuel : nat) : option Retried :=
  connect_with_retry_from self connects fuel 0 0.

(** How [get_session] ends when it ends: it returns the open session,
    raises for want of one, or passes on what [connect_with_retry]
    raised. *)
Inductive Session :=
| Open (self : CassandraClient)
| NoSession (message : string)
| Passed (retries : nat).

(** [get_session]; [execute] and [execute_async] start with the same
    lines. *)
Definition get_session (self : CassandraClient) (connects : nat → bool)
    (fuel : nat) : option Session :=
  if session self then Some (Open self)
  else
    match connect_with_retry self connects fuel with
    | None => None
    | Some (SleepRaised retries) => Some (Passed retries)
    | Some (Returned self _ _) =>
        if session self then Some (Open self)
        else Some (NoSession "No Cassandra session available")
    end.

End Connection.


(** ** Facts about slices and the descending stable sort *)

Section py_facts.
Context {A : Type}.
Implicit Types (l : list A) (key : A → Z).

Lemma slice_sublist l start stop : Py.slice l start stop `sublist_of` l.
Proof.
  unfold Py.slice. etrans; [apply sublist_take | apply sublist_drop].
Qed.

(** A window that starts at a non-negative offset is [take] after [drop]. *)
Lemma slice_window l start len :
  0 ≤ start → 0 ≤ len →
  Py.slice l start (start + len)
  = take (Z.to_nat len) (drop (Z.to_nat start) l).
Proof.
  intros Hs Hl. unfold Py.slice, Py.clamp_index.
  destruct (Z.ltb_spec start 0) as [?|_]; [lia|].
  destruct (Z.ltb_spec (start + len) 0) as [?|_]; [lia|].
  destruct (decide (start ≤ Z.of_nat (length l))) as [Hin|Hout].
  - rewrite (Z.min_l start) by lia.
    apply list_eq. intros i. rewrite !lookup_take, !lookup_drop.
    repeat case_decide; try done; try lia.
    symmetry. apply lookup_ge_None_2. lia.
  - rewrite (drop_ge l (Z.to_nat start)) by lia.
    rewrite drop_ge by lia. by rewrite !take_nil.
Qed.

Lemma slice_past_end l start stop :
  Z.of_nat (length l) ≤ start → Py.slice l start stop = [].
Proof.
  intros Hs. unfold Py.slice, Py.clamp_index.
  destruct (Z.ltb_spec start 0) as [?|_]; [lia|].
  rewrite drop_ge by lia. apply take_nil.
Qed.

Lemma slice_stop_0 l start : Py.slice l start 0 = [].
Proof.
  unfold Py.slice. generalize (Nat2Z.is_nonneg (length l)).
  generalize (Z.of_nat (length l)). intros n Hn.
  assert (Py.clamp_index n 0 = 0) as ->.
  { unfold Py.clamp_index. simpl. lia. }
  assert (0 ≤ Py.clamp_index n start) as Hlo.
  { unfold Py.clamp_index. destruct (Z.ltb_spec start 0); lia. }
  by replace (Z.to_nat (0 - Py.clamp_index n start)) with 0%nat by lia.
Qed.

Lemma slice_0_0 l : Py.slice l 0 0 = [].
Proof. apply slice_stop_0. Qed.

Lemma insert_desc_front key x l :
  Forall (key_desc key x) l → Py.insert_desc key x l = x :: l.
Proof.
  destruct 1 as [|y l Hy _]; simpl; [done|].
  unfold key_desc in Hy. destruct (Z.ltb_spec (key x) (key y)); [lia|done].
Qed.

(** Sorting a list that is already descending leaves it as it is: the
    sort is stable. *)
Lemma sort_reverse_sorted key l :
  StronglySorted (key_desc key) l → Py.sort_reverse key l = l.
Proof.
  induction 1 as [|x l Hl IH Hx]; simpl; [done|].
  fold (Py.sort_reverse key l). rewrite IH. by apply insert_desc_front.
Qed.

Lemma insert_desc_Permutation key x l : Py.insert_desc key x l ≡ₚ x :: l.
Proof.
  induction l as [|y l IH]; simpl; [done|].
  destruct (key x <? key y); [|done].
  rewrite IH. apply Permutation_swap.
Qed.

Lemma sort_reverse_Permutation key l : Py.sort_reverse key l ≡ₚ l.
Proof.
  induction l as [|x l IH]; simpl; [done|].
  fold (Py.sort_reverse key l). by rewrite insert_desc_Permutation, IH.
Qed.

Lemma sort_reverse_length key l :
  length (Py.sort_reverse key l) = length l.
Proof. by rewrite sort_reverse_Permutation. Qed.

Lemma insert_desc_sorted key x l :
  StronglySorted (key_desc key) l →
  StronglySorted (key_desc key) (Py.insert_desc key x l).
Proof.
  induction 1 as [|y l Hl IH Hy]; simpl.
  - repeat constructor.
  - destruct (Z.ltb_spec (key x) (key y)) as [Hlt|Hge].
    + constructor; [done|].
      rewrite insert_desc_Permutation. constructor; [|done].
      unfold key_desc. lia.
    + constructor; [by constructor|].
      constructor; [done|].
      eapply Forall_impl; [exact Hy|]. unfold key_desc. intros; lia.
Qed.

Lemma sort_reverse_descending key l :
  StronglySorted (key_desc key) (Py.sort_reverse key l).
Proof.
  induction l as [|x l IH]; simpl; [constructor|].
  by apply insert_desc_sorted.
Qed.

(** Stability, in the form used below: sorting commutes with keeping
    the elements that satisfy a predicate. *)
Lemma filter_insert_desc key (P : A → Prop) `{!∀ x, Decision (P x)} x l :
  StronglySorted (key_desc key) l →
  filter P (Py.insert_desc key x l)
  = if decide (P x) then Py.insert_desc key x (filter P l)
    else filter P l.
Proof.
  induction 1 as [|y l Hl IH Hy]; simpl.
  - rewrite filter_cons, filter_nil. by case_decide.
  - destruct (Z.ltb_spec (key x) (key y)) as [Hlt|Hge].
    + rewrite !filter_cons, IH.
      destruct (decide (P y)), (decide (P x)); simpl; try done.
      destruct (Z.ltb_spec (key x) (key y)); [done|lia].
    + rewrite (filter_cons _ x). destruct (decide (P x)); [|done].
      symmetry. apply insert_desc_front.
      assert (Forall (key_desc key x) (y :: l)) as Hall.
      { constructor; [done|].
        eapply Forall_impl; [exact Hy|]. unfold key_desc. intros; lia. }
      apply Forall_forall. intros z Hz.
      apply list_elem_of_filter in Hz as [_ Hz].
      by eapply Forall_forall in Hall.
Qed.

Lemma filter_sort_reverse key (P : A → Prop) `{!∀ x, Decision (P x)} l :
  filter P (Py.sort_reverse key l) = Py.sort_reverse key (filter P l).
Proof.
  induction l as [|x l IH]; simpl; [done|].
  fold (Py.sort_reverse key l).
  rewrite filter_insert_desc by apply sort_reverse_descending.
  rewrite filter_cons, IH. by destruct (decide (P x)).
Qed.

End py_facts.

(** ** Facts about lists used for the tables *)

Section list_facts.
Context {A B : Type}.

Lemma filter_fmap (f : A → B) (P : B → Prop) `{!∀ y, Decision (P y)}
    (l : list A) :
  filter P (f <$> l) = f <$> filter (λ x, P (f x)) l.
Proof.
  induction l as [|x l IH]; [done|].
  rewrite fmap_cons, !filter_cons, IH. by destruct (decide (P (f x))).
Qed.

Lemma StronglySorted_sublist (R : relation A) (l k : list A) :
  l `sublist_of` k → StronglySorted R k → StronglySorted R l.
Proof.
  induction 1 as [|x l k Hs IH|x l k Hs IH]; intros Hk;
    [done|apply StronglySorted_inv in Hk as [Hk Hx]..]; [|by auto].
  constructor; [by auto|].
  eapply Forall_forall. intros y Hy.
  eapply Forall_forall in Hx; [done|]. by eapply elem_of_sublist.
Qed.

(** A sorted list without repetition is strictly sorted, once two
    different elements of it are never equivalent for the order. *)
Lemma StronglySorted_strict (R R' : relation A) (l : list A) :
  StronglySorted R l → NoDup l →
  (∀ a b, a ∈ l → b ∈ l → a ≠ b → R a b → R' a b) →
  StronglySorted R' l.
Proof.
  induction 1 as [|x l Hl IH Hx]; intros Hnd Hstrict; [constructor|].
  apply NoDup_cons in Hnd as [Hnotin Hnd]. constructor.
  - apply IH; [done|]. intros a b Ha Hb. apply Hstrict; by right.
  - apply Forall_forall. intros y Hy. apply Hstrict.
    + by left.
    + by right.
    + intros ->. contradiction.
    + by eapply Forall_forall in Hx.
Qed.

(** The first element of a list in which every element is the same. *)
Lemma head_all_same (x : A) (l : list A) :
  l ≠ [] → (∀ y, y ∈ l → y = x) → head l = Some x.
Proof.
  destruct l as [|y l]; [done|]. intros _ Hall. simpl.
  f_equal. apply Hall. by left.
Qed.

End list_facts.

(** Rows of a table that satisfy a predicate: counted on the scan and on
    the map. *)
Lemma length_filter_map_to_list `{Countable K} {V R : Type}
    (f : K * V → R) (P : R → Prop) `{!∀ y, Decision (P y)} (m : gmap K V) :
  length (filter P (f <$> map_to_list m))
  = size (filter (λ kv, P (f kv)) m).
Proof.
  rewrite filter_fmap, length_fmap.
  rewrite map_filter_alt.
  rewrite <-length_map_to_list.
  rewrite map_to_list_to_map; [done|].
  apply NoDup_fmap_fst.
  - intros k v1 v2 [_ H1]%list_elem_of_filter [_ H2]%list_elem_of_filter.
    apply elem_of_map_to_list in H1, H2. congruence.
  - apply NoDup_filter, NoDup_map_to_list.
Qed.

(** ** Facts about the statements *)

Section cassandra_facts.
Implicit Types (db : Store).

#[global] Instance messages_order_total : Total messages_order.
Proof.
  intros a b. unfold messages_order.
  destruct (Z.lt_total (msg_timestamp a) (msg_timestamp b)) as [?|[?|?]];
    [auto|..|auto].
  destruct (N.le_ge_cases (msg_message_id a) (msg_message_id b));
    [left|right]; right; split; (done || lia).
Qed.

#[global] Instance messages_order_trans : Transitive messages_order.
Proof. intros a b c. unfold messages_order. lia. Qed.

#[global] Instance conversations_by_user_order_total :
  Total conversations_by_user_order.
Proof. intros a b. unfold conversations_by_user_order. lia. Qed.

#[global] Instance conversations_by_user_order_trans :
  Transitive conversations_by_user_order.
Proof. intros a b c. unfold conversations_by_user_order. lia. Qed.

Lemma elem_of_select_messages db c r :
  r ∈ select_messages db c
  ↔ msg_conversation_id r = c
    ∧ messages db !! (msg_conversation_id r, msg_timestamp r,
                      msg_message_id r)
      = Some (msg_sender_id r, msg_receiver_id r, msg_content r).
Proof.
  unfold select_messages. rewrite merge_sort_Permutation.
  rewrite list_elem_of_filter, list_elem_of_fmap. split.
  - intros [Hc ([[[c' t] m] [[s rc] txt]] & -> & Hin)].
    by apply elem_of_map_to_list in Hin.
  - intros [Hc Hin]. split; [done|].
    exists (msg_conversation_id r, msg_timestamp r, msg_message_id r,
            (msg_sender_id r, msg_receiver_id r, msg_content r)).
    split; [by destruct r|]. by apply elem_of_map_to_list.
Qed.

Lemma message_row_inj : Inj (=) (=) message_row.
Proof.
  intros [[[c t] m] [[s r] txt]] [[[c' t'] m'] [[s' r'] txt']] Heq.
  by inversion Heq.
Qed.

Lemma select_messages_NoDup db c : NoDup (select_messages db c).
Proof.
  unfold select_messages. rewrite merge_sort_Permutation.
  apply NoDup_filter, NoDup_fmap_2; [apply message_row_inj|].
  apply NoDup_map_to_list.
Qed.

Lemma select_messages_clustered db c :
  StronglySorted messages_order (select_messages db c).
Proof. apply StronglySorted_merge_sort; apply _. Qed.

(** Two different rows of a partition differ in timestamp or id, so
    the clustering order is strict on it. *)
Lemma select_messages_newest_first db c :
  StronglySorted newest_first (select_messages db c).
Proof.
  eapply StronglySorted_strict;
    [apply select_messages_clustered|apply select_messages_NoDup|].
  intros a b [Ha Ha']%elem_of_select_messages
    [Hb Hb']%elem_of_select_messages Hne.
  unfold messages_order, newest_first.
  intros [?|[Ht Hm]]; [by left|]. right. split; [done|].
  destruct (decide (msg_message_id a = msg_message_id b)) as [Heq|]; [|lia].
  destruct Hne. rewrite Ha, <-Hb, Ht, Heq, Hb' in Ha'.
  destruct a, b; simpl in *. congruence.
Qed.

Lemma select_messages_descending db c :
  StronglySorted (key_desc msg_timestamp) (select_messages db c).
Proof.
  eapply StronglySorted_strict with (R := newest_first);
    [apply select_messages_newest_first|apply select_messages_NoDup|].
  unfold newest_first, key_desc. intros; lia.
Qed.

Lemma length_select_messages db c :
  length (select_messages db c)
  = size (filter (λ kv, kv.1.1.1 = c) (messages db)).
Proof.
  unfold select_messages. rewrite merge_sort_Permutation.
  rewrite length_filter_map_to_list. f_equal.
  apply map_filter_ext. by intros [[c' t] m] [[s r] txt] _.
Qed.

Lemma length_select_conversations_by_user db u :
  length (select_conversations_by_user db u)
  = size (filter (λ kv, kv.1.1.1 = u) (conversations_by_user db)).
Proof.
  unfold select_conversations_by_user. rewrite merge_sort_Permutation.
  rewrite length_filter_map_to_list. f_equal.
  apply map_filter_ext. by intros [[u' t] c] [o txt] _.
Qed.

Lemma elem_of_select_conversations_by_user db u r :
  r ∈ select_conversations_by_user db u
  ↔ cbu_user_id r = u
    ∧ conversations_by_user db
        !! (cbu_user_id r, cbu_last_message_at r, cbu_conversation_id r)
      = Some (cbu_other_user_id r, cbu_last_message_content r).
Proof.
  unfold select_conversations_by_user. rewrite merge_sort_Permutation.
  rewrite list_elem_of_filter, list_elem_of_fmap. split.
  - intros [Hc ([[[u' t] c] [o txt]] & -> & Hin)].
    by apply elem_of_map_to_list in Hin.
  - intros [Hc Hin]. split; [done|].
    exists (cbu_user_id r, cbu_last_message_at r, cbu_conversation_id r,
            (cbu_other_user_id r, cbu_last_message_content r)).
    split; [by destruct r|]. by apply elem_of_map_to_list.
Qed.

Lemma elem_of_select_conversations_of_pair db a b r :
  r ∈ select_conversations_of_pair db a b
  ↔ conv_user1_id r = Some a ∧ conv_user2_id r = Some b
    ∧ ∃ cols, conversations db !! conv_conversation_id r = Some cols
              ∧ r = conversation_row (conv_conversation_id r, cols).
Proof.
  unfold select_conversations_of_pair.
  rewrite list_elem_of_filter, list_elem_of_fmap. split.
  - intros [[H1 H2] ([k cols] & -> & Hin)].
    apply elem_of_map_to_list in Hin. eauto 10.
  - intros (H1 & H2 & cols & Hin & Hr). split; [done|].
    exists (conv_conversation_id r, cols). split; [done|].
    by apply elem_of_map_to_list.
Qed.

(** [MAX(conversation_id)] is null on the empty table, and otherwise an
    id of the table that no id of the table exceeds. *)
Lemma select_max_conversation_id_None db :
  select_max_conversation_id db = None ↔ conversations db = ∅.
Proof.
  unfold select_max_conversation_id.
  rewrite <-map_to_list_empty_iff.
  destruct (map_to_list (conversations db)); simpl; split; done.
Qed.

Lemma foldr_max_spec (ks : list Z) :
  match foldr (λ k acc, Some (from_option (Z.max k) k acc)) None ks with
  | None => ks = []
  | Some m => m ∈ ks ∧ ∀ k, k ∈ ks → k ≤ m
  end.
Proof.
  induction ks as [|k ks IH]; simpl; [done|].
  destruct (foldr _ _ ks) as [m|]; simpl.
  - destruct IH as [Hin Hmax]. split.
    + destruct (Z.max_spec k m) as [[_ ->]|[_ ->]]; [by right|by left].
    + intros k' [->|Hk']%elem_of_cons; [lia|]. apply Hmax in Hk'. lia.
  - subst. split; [by left|]. by intros k' ->%list_elem_of_singleton.
Qed.

Lemma select_max_conversation_id_Some db m :
  select_max_conversation_id db = Some m →
  is_Some (conversations db !! m)
  ∧ ∀ k, is_Some (conversations db !! k) → k ≤ m.
Proof.
  unfold select_max_conversation_id. intros Hm.
  pose proof (foldr_max_spec (map_to_list (conversations db)).*1) as Hs.
  rewrite Hm in Hs. destruct Hs as [Hin Hmax]. split.
  - apply list_elem_of_fmap in Hin as ([k cols] & -> & Hin).
    apply elem_of_map_to_list in Hin. by exists cols.
  - intros k [cols Hk]. apply Hmax. apply list_elem_of_fmap.
    exists (k, cols). split; [done|]. by apply elem_of_map_to_list.
Qed.

End cassandra_facts.


(** ** The paginated reads *)

Section reads.
Implicit Types (db : Store).

Lemma format_message_before a b :
  newest_first a b → message_before (format_message a) (format_message b).
Proof. done. Qed.

(** The page of messages the code computes, with the sort taken out: the
    partition is read in clustering order, and the stable sort by
    timestamp alone leaves that order as it is. *)
Lemma get_conversation_messages_data db c page limit :
  data (get_conversation_messages db c page limit)
  = format_message
      <$> Py.slice (select_messages db c)
            ((page - 1) * limit) ((page - 1) * limit + limit).
Proof.
  unfold get_conversation_messages. simpl.
  by rewrite sort_reverse_sorted by apply select_messages_descending.
Qed.

Lemma get_messages_before_timestamp_data db c t page limit :
  data (get_messages_before_timestamp db c t page limit)
  = format_message
      <$> Py.slice (filter (λ msg, msg_timestamp msg < t)
                      (select_messages db c))
            ((page - 1) * limit) ((page - 1) * limit + limit).
Proof.
  unfold get_messages_before_timestamp. simpl.
  rewrite sort_reverse_sorted; [done|].
  eapply StronglySorted_sublist; [apply sublist_filter; apply _|].
  apply select_messages_descending.
Qed.

(** C2.  Every page of [get_conversation_messages] and of
    [get_messages_before_timestamp] lists its messages strictly in the
    order (creation timestamp descending, message id ascending): each
    entry is newer than every entry after it, or has the same timestamp
    and a smaller message id. *)
Theorem messages_pages_newest_first db c t page limit :
  StronglySorted message_before
    (data (get_conversation_messages db c page limit))
  ∧ StronglySorted message_before
      (data (get_messages_before_timestamp db c t page limit)).
Proof.
  rewrite get_conversation_messages_data, get_messages_before_timestamp_data.
  split; apply (StronglySorted_fmap _ newest_first);
    try (intros a b; apply format_message_before).
  - eapply StronglySorted_sublist; [apply slice_sublist|].
    apply select_messages_newest_first.
  - eapply StronglySorted_sublist; [apply slice_sublist|].
    eapply StronglySorted_sublist; [apply sublist_filter; apply _|].
    apply select_messages_newest_first.
Qed.

End reads.


(** ** Totals, out-of-range requests and missing conversation rows *)

Section pagination.
Implicit Types (db : Store).

Lemma foldl_summaries db (acc : list Conversation) entries :
  foldl (λ formatted conv,
           match select_conversation db (cbu_conversation_id conv) with
           | detail :: _ => formatted ++ [format_conversation detail]
           | [] => formatted
           end)
        acc entries
  = acc ++ summaries db entries.
Proof.
  revert acc. induction entries as [|conv l IH]; intros acc; simpl.
  - by rewrite app_nil_r.
  - rewrite IH. unfold summaries, select_conversation. simpl.
    destruct (conversations db !! cbu_conversation_id conv); simpl; [|done].
    by rewrite <-app_assoc.
Qed.

Lemma get_user_conversations_data db u page limit :
  data (get_user_conversations db u page limit)
  = summaries db (Py.slice (select_conversations_by_user db u)
                    ((page - 1) * limit) ((page - 1) * limit + limit)).
Proof. unfold get_user_conversations. simpl. by rewrite foldl_summaries. Qed.

Lemma length_messages_before db c t :
  length (filter (λ msg, msg_timestamp msg < t) (select_messages db c))
  = size (messages_of_before db c t).
Proof.
  unfold select_messages, messages_of_before.
  rewrite merge_sort_Permutation, list_filter_filter.
  rewrite length_filter_map_to_list. f_equal.
  apply map_filter_ext. intros [[c' t'] m] [[s r] txt] _. simpl. tauto.
Qed.

(** C3.  The [total] of each paginated read is the number of rows of its
    whole matching set (the messages of the conversation, those of them
    with a timestamp below the bound, the index entries of the user),
    whatever page and limit are asked for. *)
Theorem total_is_size_of_matching_set db c t u page limit :
  total (get_conversation_messages db c page limit)
  = Z.of_nat (size (messages_of db c))
  ∧ total (get_messages_before_timestamp db c t page limit)
    = Z.of_nat (size (messages_of_before db c t))
  ∧ total (get_user_conversations db u page limit)
    = Z.of_nat (size (index_entries_of db u)).
Proof.
  unfold get_conversation_messages, get_messages_before_timestamp,
    get_user_conversations. simpl.
  by rewrite length_select_messages, length_messages_before,
    length_select_conversations_by_user.
Qed.

Lemma slice_out_of_range {A} (l : list A) page limit :
  out_of_range (Z.of_nat (length l)) page limit →
  Py.slice l ((page - 1) * limit) ((page - 1) * limit + limit) = [].
Proof.
  intros [->|[->|(Hp & Hl & Htotal)]].
  - replace ((0 - 1) * limit + limit) with 0 by lia. apply slice_stop_0.
  - replace ((page - 1) * 0) with 0 by lia. apply slice_0_0.
  - by apply slice_past_end.
Qed.

(** C7, as the code has it.  A request for page 0, for limit 0, or for a
    page (with page and limit at least 1) past the last one gets an empty
    [data] list from each paginated read, and every request gets back
    its own [page] and [limit] next to the [total] of the matching set. *)
Theorem out_of_range_request_is_empty db c t u page limit :
  let msgs := get_conversation_messages db c page limit in
  let before := get_messages_before_timestamp db c t page limit in
  let convs := get_user_conversations db u page limit in
  (out_of_range (total msgs) page limit → data msgs = [])
  ∧ (out_of_range (total before) page limit → data before = [])
  ∧ (out_of_range (total convs) page limit → data convs = [])
  ∧ (MessageModel.page msgs, MessageModel.limit msgs) = (page, limit)
  ∧ (MessageModel.page before, MessageModel.limit before) = (page, limit)
  ∧ (MessageModel.page convs, MessageModel.limit convs) = (page, limit).
Proof.
  intros msgs before convs. repeat split.
  - intros Hout. unfold msgs. rewrite get_conversation_messages_data.
    by rewrite slice_out_of_range.
  - intros Hout. unfold before. rewrite get_messages_before_timestamp_data.
    by rewrite slice_out_of_range.
  - intros Hout. unfold convs. rewrite get_user_conversations_data.
    by rewrite slice_out_of_range.
Qed.

(** C7, as stated, fails: with a negative limit, or a negative page, the
    slice counts from the end of the list and the page is not empty. *)
Lemma negative_request_wraps_around :
  data (get_conversation_messages store_after_hello 1 1 (-1))
  = [ {| m_id := 2; m_conversation_id := 1; m_sender_id := U2;
         m_receiver_id := U1; m_content := "hello"; m_created_at := 201 |} ]
  ∧ data (get_conversation_messages store_after_hello 1 (-1) 1)
    = [ {| m_id := 2; m_conversation_id := 1; m_sender_id := U2;
           m_receiver_id := U1; m_content := "hello"; m_created_at := 201 |} ]
  ∧ length (data (get_user_conversations store_after_hello U1 1 (-1)))
    = 1%nat.
Proof. by vm_compute. Qed.

(** C10.  [get_user_conversations] counts the index entries of the user
    in [total], and lists in [data] only the entries of the page whose
    row in [conversations] exists; so a page that is in range can hold
    fewer entries than [min limit (total - (page - 1) * limit)], as it
    does on [store_dangling_index]. *)
Theorem user_conversations_skip_missing_rows :
  (∀ db u page limit,
     let r := get_user_conversations db u page limit in
     total r = Z.of_nat (length (select_conversations_by_user db u))
     ∧ data r
       = summaries db (Py.slice (select_conversations_by_user db u)
                         ((page - 1) * limit) ((page - 1) * limit + limit)))
  ∧ (let r := get_user_conversations store_dangling_index U1 1 20 in
     total r = 1 ∧ data r = []
     ∧ Z.of_nat (length (data r)) < Z.min 20 (total r - (1 - 1) * 20)).
Proof.
  split.
  - intros db u page limit. split; [done|].
    apply get_user_conversations_data.
  - by vm_compute.
Qed.

End pagination.

(** ** The pages of a read, taken together *)

Section pages.
Implicit Types (db : Store).

(** Pages [1 .. n] of a window read over [l] are the first [n * limit]
    elements of [l]. *)
Lemma all_pages_take {A B} (f : A → B) (l : list A) (get : Z → Paged B)
    limit n :
  0 ≤ limit →
  (∀ p, data (get p)
        = f <$> Py.slice l ((p - 1) * limit) ((p - 1) * limit + limit)) →
  all_pages get n = f <$> take (n * Z.to_nat limit) l.
Proof.
  intros Hlimit Hget. unfold all_pages.
  induction n as [|n IH]; [by rewrite take_0|].
  rewrite seq_S, flat_map_app, IH. simpl. rewrite app_nil_r, Hget.
  rewrite slice_window by lia.
  replace (Z.to_nat ((Z.of_nat (S n) - 1) * limit))
    with (n * Z.to_nat limit)%nat by lia.
  rewrite <-fmap_app, take_take_drop. f_equal. f_equal. lia.
Qed.

Lemma all_pages_whole {A B} (f : A → B) (l : list A) (get : Z → Paged B)
    limit n :
  0 ≤ limit → Z.of_nat (length l) ≤ Z.of_nat n * limit →
  (∀ p, data (get p)
        = f <$> Py.slice l ((p - 1) * limit) ((p - 1) * limit + limit)) →
  all_pages get n = f <$> l.
Proof.
  intros Hlimit Hn Hget. rewrite (all_pages_take f l get limit) by done.
  rewrite take_ge; [done|]. nia.
Qed.

(** An element of the whole list is on one of its pages. *)
Lemma elem_of_some_page {A B} (f : A → B) (l : list A) (get : Z → Paged B)
    limit y :
  1 ≤ limit →
  (∀ p, data (get p)
        = f <$> Py.slice l ((p - 1) * limit) ((p - 1) * limit + limit)) →
  y ∈ f <$> l → ∃ p, 1 ≤ p ∧ y ∈ data (get p).
Proof.
  intros Hlimit Hget Hy.
  rewrite <-(all_pages_whole f l get limit (length l)) in Hy
    by (done || nia).
  apply list_elem_of_In, in_flat_map in Hy as (p & Hp & Hy).
  apply in_seq in Hp. exists (Z.of_nat p). split; [lia|].
  by apply list_elem_of_In.
Qed.

(** C4.  With pages of [limit >= 1] entries and enough pages to hold the
    whole conversation, the pages of [get_messages_before_timestamp]
    list exactly the entries of the pages of [get_conversation_messages]
    whose creation timestamp is strictly below the bound, in the same
    order. *)
Theorem messages_before_timestamp_is_filter db c t limit n :
  1 ≤ limit →
  total (get_conversation_messages db c 1 limit) ≤ Z.of_nat n * limit →
  all_pages (λ p, get_messages_before_timestamp db c t p limit) n
  = filter (λ m, m_created_at m < t)
      (all_pages (λ p, get_conversation_messages db c p limit) n).
Proof.
  intros Hlimit Hn. unfold get_conversation_messages in Hn. simpl in Hn.
  rewrite (all_pages_whole format_message
             (Py.sort_reverse msg_timestamp (select_messages db c))
             (λ p, get_conversation_messages db c p limit) limit n);
    [|lia|by rewrite sort_reverse_length|done].
  rewrite (all_pages_whole format_message
             (Py.sort_reverse msg_timestamp
                (filter (λ msg, msg_timestamp msg < t)
                   (select_messages db c)))
             (λ p, get_messages_before_timestamp db c t p limit) limit n);
    [|lia| |done].
  - by rewrite filter_fmap, filter_sort_reverse.
  - rewrite sort_reverse_length.
    pose proof (length_filter (λ msg, msg_timestamp msg < t)
                  (select_messages db c)). lia.
Qed.

End pages.

(** ** The write path *)

Section write_path.
Implicit Types (db : Store).

Lemma create_message_messages db now mid s r txt c :
  messages (create_message db now mid s r txt c).2
  = <[(c, now, mid) := (s, r, txt)]> (messages db).
Proof. done. Qed.

Lemma create_message_conversations db now mid s r txt c :
  conversations (create_message db now mid s r txt c).2
  = <[c := let old := default null_cols (conversations db !! c) in
           {| col_user1_id := col_user1_id old;
              col_user2_id := col_user2_id old;
              col_created_at := col_created_at old;
              col_last_message_at := Some now;
              col_last_message_content := Some txt |}]> (conversations db).
Proof. done. Qed.

Lemma create_message_conversations_by_user db now mid s r txt c :
  conversations_by_user (create_message db now mid s r txt c).2
  = <[(r, now, c) := (if decide (r = s) then r else s, txt)]>
      (<[(s, now, c) := (r, txt)]> (conversations_by_user db)).
Proof.
  unfold create_message.
  cbn [foldl snd conversations_by_user insert_into_conversations_by_user
       update_conversations insert_into_messages_by_user
       insert_into_messages].
  by rewrite (decide_True (P := s = s)) by done.
Qed.

Lemma get_conversation_lookup db c :
  get_conversation db c = conversation_of c <$> conversations db !! c.
Proof.
  unfold get_conversation, select_conversation.
  by destruct (conversations db !! c).
Qed.

(** C6.  After [create_message], the message is on a page of
    [get_conversation_messages] for its conversation (at every page size
    of at least 1) with the id, sender, receiver, content and timestamp
    of the call, and [get_conversation] returns the conversation with
    the content and timestamp of the message as its last-message fields.
    The returned dictionary carries the same values. *)
Theorem create_message_round_trip db now mid sender receiver content c limit :
  1 ≤ limit →
  let r := create_message db now mid sender receiver content c in
  (∃ page, 1 ≤ page
     ∧ {| m_id := mid; m_conversation_id := c; m_sender_id := sender;
          m_receiver_id := receiver; m_content := content;
          m_created_at := now |}
       ∈ data (get_conversation_messages r.2 c page limit))
  ∧ (∃ conv, get_conversation r.2 c = Some conv
       ∧ c_id conv = c
       ∧ c_last_message_content conv = Some content
       ∧ c_last_message_at conv = Some now)
  ∧ r.1 = {| cm_id := mid; cm_conversation_id := c; cm_sender_id := sender;
             cm_receiver_id := receiver; cm_content := content;
             cm_created_at := now; cm_read_at := None |}.
Proof.
  intros Hlimit r. split; [|split; [|done]].
  - eapply (elem_of_some_page format_message (select_messages r.2 c));
      [done|intros p; apply get_conversation_messages_data|].
    apply list_elem_of_fmap.
    exists {| msg_conversation_id := c; msg_timestamp := now;
              msg_message_id := mid; msg_sender_id := sender;
              msg_receiver_id := receiver; msg_content := content |}.
    split; [done|]. apply elem_of_select_messages. split; [done|].
    unfold r. rewrite create_message_messages. apply lookup_insert_eq.
  - rewrite get_conversation_lookup. unfold r.
    rewrite create_message_conversations, lookup_insert_eq. simpl.
    eexists. split; [done|]. done.
Qed.

(** C9.  [get_conversation] returns [None] exactly when the table has no
    row with the id, and for a row that exists it returns the id, the
    two participants and the last-message fields of that row.  (The
    method is a total function of the store: absence is a value, not an
    exception.) *)
Theorem get_conversation_absent_iff_no_row db c :
  (get_conversation db c = None ↔ conversations db !! c = None)
  ∧ (∀ cols, conversations db !! c = Some cols →
       get_conversation db c
       = Some {| c_id := c;
                 c_user1_id := col_user1_id cols;
                 c_user2_id := col_user2_id cols;
                 c_last_message_at := col_last_message_at cols;
                 c_last_message_content := col_last_message_content cols |}).
Proof.
  rewrite get_conversation_lookup. split.
  - apply fmap_None.
  - by intros cols ->.
Qed.

(** Every [create_message] at a timestamp the index of the sender does
    not hold yet for the conversation adds an entry to that index. *)
Lemma create_message_adds_index_entry db now mid s r txt c page limit :
  s ≠ r → conversations_by_user db !! (s, now, c) = None →
  total (get_user_conversations (create_message db now mid s r txt c).2
           s page limit)
  = total (get_user_conversations db s page limit) + 1.
Proof.
  intros Hne Hfresh. unfold get_user_conversations. simpl.
  rewrite !length_select_conversations_by_user.
  fold (create_message db now mid s r txt c).
  change (conversations_by_user _)
    with (conversations_by_user (create_message db now mid s r txt c).2)
    at 1.
  rewrite create_message_conversations_by_user.
  rewrite map_filter_insert_not by (intros y; simpl; congruence).
  rewrite map_filter_insert_True by done.
  rewrite map_size_insert_None; [lia|].
  by rewrite map_lookup_filter_None_2; [|left].
Qed.

(** C1, on the scenario of the specification: after U1 has sent "hi" and
    U2 has answered "hello" in the same conversation, the index of U1
    holds two entries, and the conversation is listed twice. *)
Theorem index_holds_one_entry_per_message :
  let r := get_user_conversations store_after_hello U1 1 20 in
  total r = 2
  ∧ data r
    = [ {| c_id := 1; c_user1_id := Some U1; c_user2_id := Some U2;
           c_last_message_at := Some 201;
           c_last_message_content := Some "hello" |};
        {| c_id := 1; c_user1_id := Some U1; c_user2_id := Some U2;
           c_last_message_at := Some 201;
           c_last_message_content := Some "hello" |} ].
Proof. by vm_compute. Qed.

End write_path.

(** ** Conversations of a pair of users *)

(** The three ways the two lookups of [create_or_get_conversation] can
    turn out: neither finds a row, only the second does, the first does. *)
Ltac lookup_cases db a b Hab Hba :=
  destruct (select_conversations_of_pair db a b) as [|? ?] eqn:Hab;
    [destruct (select_conversations_of_pair db b a) as [|? ?] eqn:Hba|].

Section conversations_of_a_pair.
Implicit Types (db : Store) (cols : ConversationCols).

Lemma of_pair_sym a b cols : of_pair a b cols → of_pair b a cols.
Proof. unfold of_pair. tauto. Qed.

(** Two pairs with a row in common are the same unordered pair. *)
Lemma of_pair_same a b x y cols cols' :
  of_pair a b cols → of_pair x y cols → of_pair x y cols' →
  of_pair a b cols'.
Proof. unfold of_pair. intuition congruence. Qed.

Lemma select_conversations_of_pair_of_pair db a b r :
  r ∈ select_conversations_of_pair db a b →
  ∃ cols, conversations db !! conv_conversation_id r = Some cols
          ∧ of_pair a b cols.
Proof.
  intros (H1 & H2 & cols & Hcols & Hr)%elem_of_select_conversations_of_pair.
  exists cols. split; [done|]. left. rewrite Hr in H1, H2. by simpl in *.
Qed.

Lemma select_conversations_of_pair_row db a b i cols :
  conversations db !! i = Some cols →
  col_user1_id cols = Some a → col_user2_id cols = Some b →
  conversation_row (i, cols) ∈ select_conversations_of_pair db a b.
Proof.
  intros Hi H1 H2. apply elem_of_select_conversations_of_pair.
  repeat split; [done..|]. by exists cols.
Qed.

Lemma select_conversations_of_pair_nil db a b :
  select_conversations_of_pair db a b = [] →
  select_conversations_of_pair db b a = [] →
  ∀ i cols, conversations db !! i = Some cols → ¬ of_pair a b cols.
Proof.
  intros Hab Hba i cols Hi [[H1 H2]|[H1 H2]].
  - pose proof (select_conversations_of_pair_row db a b i cols Hi H1 H2) as Hin.
    rewrite Hab in Hin. by apply elem_of_nil in Hin.
  - pose proof (select_conversations_of_pair_row db b a i cols Hi H1 H2) as Hin.
    rewrite Hba in Hin. by apply elem_of_nil in Hin.
Qed.

(** The id [create_or_get_conversation] allocates. *)
Lemma new_id_spec db :
  let new_id := Py.or_else (select_max_conversation_id db) 0 + 1 in
  (conversations db = ∅ → new_id = 1)
  ∧ (∀ m, is_Some (conversations db !! m) →
          (∀ k, is_Some (conversations db !! k) → k ≤ m) → new_id = m + 1)
  ∧ (∀ k, is_Some (conversations db !! k) → k < new_id).
Proof.
  intros new_id. unfold new_id.
  destruct (select_max_conversation_id db) as [m'|] eqn:Hmax.
  - apply select_max_conversation_id_Some in Hmax as [Hin Hle].
    assert (Py.or_else (Some m') 0 = m') as ->.
    { simpl. destruct (Z.eqb_spec m' 0); lia. }
    repeat split.
    + intros Hempty. rewrite Hempty, lookup_empty in Hin.
      by destruct Hin.
    + intros m Hm Hmle. apply Hle in Hm. apply Hmle in Hin. lia.
    + intros k Hk. apply Hle in Hk. lia.
  - apply select_max_conversation_id_None in Hmax. simpl. repeat split.
    + intros m [cols Hm]. by rewrite Hmax, lookup_empty in Hm.
    + intros k [cols Hk]. by rewrite Hmax, lookup_empty in Hk.
Qed.

Lemma new_id_fresh db :
  conversations db !! (Py.or_else (select_max_conversation_id db) 0 + 1)
  = None.
Proof.
  destruct (conversations db !! _) as [cols|] eqn:Hnew; [|done].
  destruct (new_id_spec db) as (_ & _ & Hlt).
  specialize (Hlt _ (mk_is_Some _ _ Hnew)). lia.
Qed.

(** The two outcomes of [create_or_get_conversation]. *)
Lemma create_or_get_conversation_new db now a b :
  select_conversations_of_pair db a b = [] →
  select_conversations_of_pair db b a = [] →
  let new_id := Py.or_else (select_max_conversation_id db) 0 + 1 in
  let r := create_or_get_conversation db now a b in
  cf_id r.1 = new_id
  ∧ conversations r.2
    = <[new_id := {| col_user1_id := Some a; col_user2_id := Some b;
                     col_created_at := Some now;
                     col_last_message_at := Some now;
                     col_last_message_content := None |}]>
        (conversations db).
Proof.
  intros Hab Hba new_id r. unfold r, create_or_get_conversation.
  rewrite Hab, Hba. simpl. split; [done|].
  by rewrite new_id_fresh.
Qed.

Lemma create_or_get_conversation_existing db now a b :
  (select_conversations_of_pair db a b ≠ []
   ∨ select_conversations_of_pair db b a ≠ []) →
  let r := create_or_get_conversation db now a b in
  r.2 = db
  ∧ ∃ cols, conversations db !! cf_id r.1 = Some cols ∧ of_pair a b cols.
Proof.
  intros Hsome r. unfold r, create_or_get_conversation.
  destruct (select_conversations_of_pair db a b) as [|conv l] eqn:Hab.
  - destruct (select_conversations_of_pair db b a) as [|conv l] eqn:Hba.
    { by destruct Hsome. }
    simpl. split; [done|].
    destruct (select_conversations_of_pair_of_pair db b a conv)
      as (cols & Hcols & Hpair); [rewrite Hba; by left|].
    exists cols. split; [done|]. by apply of_pair_sym.
  - simpl. split; [done|].
    apply (select_conversations_of_pair_of_pair db a b conv).
    rewrite Hab. by left.
Qed.

(** Whatever the outcome, the conversation returned is a row of the pair
    in the store the call leaves. *)
Lemma create_or_get_conversation_row db now a b :
  let r := create_or_get_conversation db now a b in
  ∃ cols, conversations r.2 !! cf_id r.1 = Some cols ∧ of_pair a b cols.
Proof.
  intros r.
  lookup_cases db a b Hab Hba.
  - destruct (create_or_get_conversation_new db now a b Hab Hba)
      as [Hid Hconvs].
    fold r in Hid, Hconvs. rewrite Hconvs, Hid, lookup_insert_eq.
    eexists. split; [done|]. by left.
  - destruct (create_or_get_conversation_existing db now a b) as [Hdb Hrow].
    { right. by rewrite Hba. }
    fold r in Hdb, Hrow. by rewrite Hdb.
  - destruct (create_or_get_conversation_existing db now a b) as [Hdb Hrow].
    { left. by rewrite Hab. }
    fold r in Hdb, Hrow. by rewrite Hdb.
Qed.

(** On a store with one row per pair, a pair that has a row gets that
    row, in either order of the arguments, and the store is left as it
    is. *)
Lemma create_or_get_conversation_of_row db now a b i cols :
  one_conversation_per_pair db →
  conversations db !! i = Some cols → of_pair a b cols →
  let r := create_or_get_conversation db now a b in
  cf_id r.1 = i ∧ r.2 = db.
Proof.
  intros Hinv Hi Hpair r.
  destruct (create_or_get_conversation_existing db now a b)
    as [Hdb (cols' & Hcols' & Hpair')].
  - destruct Hpair as [[H1 H2]|[H1 H2]]; [left|right]; intros Hnil;
      eapply elem_of_nil; rewrite <-Hnil;
      by eapply select_conversations_of_pair_row.
  - fold r in Hdb, Hcols'. split; [|done]. by eapply Hinv.
Qed.

End conversations_of_a_pair.


(** ** The invariant of the conversations table *)

Section one_per_pair.
Implicit Types (db : Store) (cols : ConversationCols).

Lemma one_conversation_per_pair_empty : one_conversation_per_pair empty_store.
Proof. intros i j ci cj a b Hi. simpl in Hi. by rewrite lookup_empty in Hi. Qed.

Lemma create_or_get_conversation_one_per_pair db now a b :
  one_conversation_per_pair db →
  one_conversation_per_pair (create_or_get_conversation db now a b).2.
Proof.
  intros Hinv.
  lookup_cases db a b Hab Hba.
  - destruct (create_or_get_conversation_new db now a b Hab Hba)
      as [_ Hconvs].
    pose proof (select_conversations_of_pair_nil db a b Hab Hba) as Hnone.
    intros i j ci cj x y. rewrite Hconvs.
    rewrite !lookup_insert_Some.
    intros [[<- <-]|[Hi Hci]] [[<- <-]|[Hj Hcj]] Hpi Hpj; [done|..].
    + destruct (Hnone j cj Hcj).
      eapply (of_pair_same a b x y); [|exact Hpi|exact Hpj]. by left.
    + destruct (Hnone i ci Hci).
      eapply (of_pair_same a b x y); [|exact Hpj|exact Hpi]. by left.
    + by eapply Hinv.
  - destruct (create_or_get_conversation_existing db now a b) as [-> _];
      [right; by rewrite Hba|done].
  - destruct (create_or_get_conversation_existing db now a b) as [-> _];
      [left; by rewrite Hab|done].
Qed.

Lemma create_message_one_per_pair db now mid s r txt c :
  one_conversation_per_pair db →
  one_conversation_per_pair (create_message db now mid s r txt c).2.
Proof.
  intros Hinv.
  assert (∀ i ci x y,
            conversations (create_message db now mid s r txt c).2 !! i
            = Some ci →
            of_pair x y ci →
            ∃ ci', conversations db !! i = Some ci' ∧ of_pair x y ci')
    as Hold.
  { intros i ci x y. rewrite create_message_conversations.
    rewrite lookup_insert_Some. intros [[<- <-]|[_ Hi]] Hp; [|by eauto].
    destruct (conversations db !! c) as [old|]; simpl in Hp.
    - by exists old.
    - by destruct Hp as [[? _]|[? _]]. }
  intros i j ci cj x y Hi Hj Hpi Hpj.
  destruct (Hold _ _ _ _ Hi Hpi) as (ci' & Hi' & Hpi').
  destruct (Hold _ _ _ _ Hj Hpj) as (cj' & Hj' & Hpj').
  by eapply Hinv.
Qed.

(** Calls made one after the other keep one row per pair. *)
Lemma reachable_one_per_pair db :
  reachable db → one_conversation_per_pair db.
Proof.
  induction 1 as [|db now a b _ IH|db now mid s r txt c _ IH].
  - apply one_conversation_per_pair_empty.
  - by apply create_or_get_conversation_one_per_pair.
  - by apply create_message_one_per_pair.
Qed.

(** A call that finds a row does not read the clock. *)
Lemma create_or_get_conversation_clock db now now' a b :
  (select_conversations_of_pair db a b ≠ []
   ∨ select_conversations_of_pair db b a ≠ []) →
  create_or_get_conversation db now a b
  = create_or_get_conversation db now' a b.
Proof.
  intros Hsome. unfold create_or_get_conversation.
  destruct (select_conversations_of_pair db a b); [|done].
  destruct (select_conversations_of_pair db b a); [|done].
  by destruct Hsome.
Qed.

(** After a call for a pair, the pair has a row, in both orientations of
    the lookup taken together. *)
Lemma create_or_get_conversation_then_found db now a b :
  let db' := (create_or_get_conversation db now a b).2 in
  (select_conversations_of_pair db' a b ≠ []
   ∨ select_conversations_of_pair db' b a ≠ [])
  ∧ (select_conversations_of_pair db' b a ≠ []
     ∨ select_conversations_of_pair db' a b ≠ []).
Proof.
  intros db'.
  destruct (create_or_get_conversation_row db now a b)
    as (cols & Hcols & [[H1 H2]|[H1 H2]]); fold db' in Hcols.
  - pose proof (select_conversations_of_pair_row db' a b _ cols Hcols H1 H2)
      as Hin.
    split; [left|right]; intros Hnil; rewrite Hnil in Hin;
      by apply elem_of_nil in Hin.
  - pose proof (select_conversations_of_pair_row db' b a _ cols Hcols H1 H2)
      as Hin.
    split; [right|left]; intros Hnil; rewrite Hnil in Hin;
      by apply elem_of_nil in Hin.
Qed.

(** A second call for the same pair, in the same order, returns the id
    of the first. *)
Lemma create_or_get_conversation_again db now now' a b :
  let r1 := create_or_get_conversation db now a b in
  cf_id (create_or_get_conversation r1.2 now' a b).1 = cf_id r1.1.
Proof.
  intros r1.
  lookup_cases db a b Hab Hba.
  - destruct (create_or_get_conversation_new db now a b Hab Hba)
      as [Hid Hconvs].
    pose proof (select_conversations_of_pair_nil db a b Hab Hba) as Hnone.
    destruct (create_or_get_conversation_existing r1.2 now' a b)
      as [_ (cols & Hcols & Hpair)].
    { apply (create_or_get_conversation_then_found db now a b). }
    fold r1 in Hid, Hconvs. rewrite Hid. rewrite Hconvs in Hcols.
    apply lookup_insert_Some in Hcols as [[? _]|[_ Hcols]]; [done|].
    by destruct (Hnone _ _ Hcols).
  - destruct (create_or_get_conversation_existing db now a b) as [Hdb _];
      [right; by rewrite Hba|].
    fold r1 in Hdb. rewrite Hdb. unfold r1. f_equal. f_equal.
    apply create_or_get_conversation_clock. right. by rewrite Hba.
  - destruct (create_or_get_conversation_existing db now a b) as [Hdb _];
      [left; by rewrite Hab|].
    fold r1 in Hdb. rewrite Hdb. unfold r1. f_equal. f_equal.
    apply create_or_get_conversation_clock. left. by rewrite Hab.
Qed.

End one_per_pair.

(** ** Finding or creating the conversation of a pair *)

Section create_or_get.
Implicit Types (db : Store).

(** C5.  A call of [create_or_get_conversation] for a pair, followed by
    a second call for the pair, in the same order or the other: the
    second call inserts nothing (it leaves the store as the first left
    it); in the same order it returns the id of the first; and in the
    other order too, on every store with at most one conversation row
    per unordered pair, which is what calls made one after the other
    keep ([reachable_one_per_pair]). *)
Theorem create_or_get_conversation_idempotent db now1 now2 a b :
  let first := create_or_get_conversation db now1 a b in
  let same := create_or_get_conversation first.2 now2 a b in
  let swapped := create_or_get_conversation first.2 now2 b a in
  cf_id same.1 = cf_id first.1
  ∧ same.2 = first.2
  ∧ swapped.2 = first.2
  ∧ (one_conversation_per_pair db → cf_id swapped.1 = cf_id first.1).
Proof.
  intros first same swapped.
  destruct (create_or_get_conversation_then_found db now1 a b)
    as [Hab Hba]. fold first in Hab, Hba.
  repeat split.
  - apply create_or_get_conversation_again.
  - by apply create_or_get_conversation_existing.
  - by apply create_or_get_conversation_existing.
  - intros Hinv.
    destruct (create_or_get_conversation_row db now1 a b)
      as (cols & Hcols & Hpair). fold first in Hcols.
    apply (create_or_get_conversation_of_row first.2 now2 b a _ cols);
      [|done|by apply of_pair_sym].
    by apply create_or_get_conversation_one_per_pair.
Qed.

(** The condition on the store is needed for the other order: with a
    row for each orientation of a pair, each order of the arguments
    finds its own row. *)
Remark two_orientations_two_ids :
  cf_id (create_or_get_conversation store_two_orientations 300 U1 U2).1 = 1
  ∧ cf_id (create_or_get_conversation store_two_orientations 300 U2 U1).1 = 2.
Proof. by vm_compute. Qed.

(** C8.  When neither orientation of the pair has a row, the id of the
    new conversation is 1 on an empty table and the greatest id of the
    table plus one otherwise; it is above every id of the table, and the
    call adds the row of that id, for the pair, and nothing else. *)
Theorem new_conversation_id_is_max_plus_one db now a b :
  select_conversations_of_pair db a b = [] →
  select_conversations_of_pair db b a = [] →
  let r := create_or_get_conversation db now a b in
  (conversations db = ∅ → cf_id r.1 = 1)
  ∧ (∀ m, is_Some (conversations db !! m) →
          (∀ k, is_Some (conversations db !! k) → k ≤ m) →
          cf_id r.1 = m + 1)
  ∧ (∀ k, is_Some (conversations db !! k) → k < cf_id r.1)
  ∧ conversations r.2
    = <[cf_id r.1 := {| col_user1_id := Some a; col_user2_id := Some b;
                        col_created_at := Some now;
                        col_last_message_at := Some now;
                        col_last_message_content := None |}]>
        (conversations db).
Proof.
  intros Hab Hba r.
  destruct (create_or_get_conversation_new db now a b Hab Hba)
    as [Hid Hconvs]. fold r in Hid, Hconvs.
  rewrite Hid. destruct (new_id_spec db) as (H1 & H2 & H3).
  by repeat split.
Qed.

Lemma reachable_send_message db now_conv now_msg mid s r txt c :
  reachable db →
  reachable (send_message db now_conv now_msg mid s r txt c).2.
Proof.
  intros Hdb. unfold send_message.
  destruct c as [c|]; [destruct (c =? 0)|];
    try destruct (create_or_get_conversation db now_conv s r)
      as [conv db'] eqn:Hcog;
    apply reachable_create_message; try done;
    change db' with (conv, db').2; rewrite <-Hcog;
    by apply reachable_create_or_get.
Qed.

Lemma reachable_store_after_hello : reachable store_after_hello.
Proof. do 2 apply reachable_send_message. constructor. Qed.

End create_or_get.

(** ** The theorems at concrete inputs *)

Lemma messages_before_timestamp_is_filter_witness :
  all_pages (λ p, get_messages_before_timestamp store_after_hello 1 201 p 1) 2
  = filter (λ m, m_created_at m < 201)
      (all_pages (λ p, get_conversation_messages store_after_hello 1 p 1) 2).
Proof.
  apply messages_before_timestamp_is_filter; [lia|by vm_compute].
Defined.

Lemma create_or_get_conversation_idempotent_witness :
  cf_id (create_or_get_conversation
           (create_or_get_conversation store_after_hello 300 U1 U2).2
           400 U2 U1).1
  = cf_id (create_or_get_conversation store_after_hello 300 U1 U2).1.
Proof.
  apply (create_or_get_conversation_idempotent store_after_hello 300 400 U1 U2).
  apply reachable_one_per_pair, reachable_store_after_hello.
Defined.

Lemma create_message_round_trip_witness :
  ∃ page, 1 ≤ page
    ∧ {| m_id := 1; m_conversation_id := 1; m_sender_id := U1;
         m_receiver_id := U2; m_content := "hi"; m_created_at := 101 |}
      ∈ data (get_conversation_messages
                (create_message empty_store 101 1 U1 U2 "hi" 1).2 1 page 20).
Proof.
  apply (create_message_round_trip empty_store 101 1 U1 U2 "hi" 1 20). lia.
Defined.

Lemma out_of_range_request_is_empty_witness :
  data (get_conversation_messages store_after_hello 1 2 20) = []
  ∧ data (get_user_conversations store_after_hello U1 0 20) = [].
Proof.
  split.
  - apply (out_of_range_request_is_empty store_after_hello 1 0 U1 2 20).
    right. right. vm_compute. repeat split; discriminate.
  - apply (out_of_range_request_is_empty store_after_hello 1 0 U1 0 20).
    left. reflexivity.
Defined.

Lemma new_conversation_id_is_max_plus_one_witness :
  cf_id (create_or_get_conversation store_after_hello 300 U1 33).1 = 2.
Proof.
  refine (proj1 (proj2 (new_conversation_id_is_max_plus_one
                          store_after_hello 300 U1 33 _ _)) 1 _ _).
  - vm_compute. reflexivity.
  - vm_compute. reflexivity.
  - vm_compute. eexists. reflexivity.
  - intros k [cols Hk]. destruct (decide (k = 1)) as [->|Hne]; [lia|].
    exfalso. revert Hk.
    replace (conversations store_after_hello)
      with ({[1 := {| col_user1_id := Some U1; col_user2_id := Some U2;
                      col_created_at := Some 100;
                      col_last_message_at := Some 201;
                      col_last_message_content := Some "hello" |}]}
            : gmap Z ConversationCols)
      by (vm_compute; reflexivity).
    rewrite lookup_singleton_ne; [discriminate|done].
Defined.

Lemma get_conversation_absent_iff_no_row_witness :
  get_conversation store_after_hello 2 = None
  ∧ get_conversation store_after_hello 1
    = Some {| c_id := 1; c_user1_id := Some U1; c_user2_id := Some U2;
              c_last_message_at := Some 201;
              c_last_message_content := Some "hello" |}.
Proof.
  split.
  - apply (get_conversation_absent_iff_no_row store_after_hello 2).
    vm_compute. reflexivity.
  - apply (proj2 (get_conversation_absent_iff_no_row store_after_hello 1)
             {| col_user1_id := Some U1; col_user2_id := Some U2;
                col_created_at := Some 100;
                col_last_message_at := Some 201;
                col_last_message_content := Some "hello" |}).
    vm_compute. reflexivity.
Defined.

(** ** More on pages *)

Section page_sizes.
Implicit Types (db : Store).

Lemma slice_length_le {A} (l : list A) start len :
  0 ≤ len → Z.of_nat (length (Py.slice l start (start + len))) ≤ len.
Proof.
  intros Hlen. unfold Py.slice, Py.clamp_index.
  rewrite length_take, length_drop.
  destruct (Z.ltb_spec start 0), (Z.ltb_spec (start + len) 0); lia.
Qed.

Lemma slice_window_length {A} (l : list A) start len :
  0 ≤ start → 0 ≤ len →
  Z.of_nat (length (Py.slice l start (start + len)))
  = Z.min len (Z.max 0 (Z.of_nat (length l) - start)).
Proof.
  intros Hstart Hlen. rewrite slice_window by done.
  rewrite length_take, length_drop. lia.
Qed.

Lemma length_summaries db entries :
  (length (summaries db entries) ≤ length entries)%nat.
Proof.
  unfold summaries. induction entries as [|conv l IH]; csimpl; [done|].
  destruct (conversations db !! cbu_conversation_id conv); simpl; lia.
Qed.

(** X1.  With a limit that is not negative, no page of the three reads holds
    more than [limit] entries, whatever the page number (zero and
    negative ones too). *)
Theorem page_holds_at_most_limit db c t u page limit :
  0 ≤ limit →
  Z.of_nat (length (data (get_conversation_messages db c page limit)))
  ≤ limit
  ∧ Z.of_nat (length (data (get_messages_before_timestamp db c t page limit)))
    ≤ limit
  ∧ Z.of_nat (length (data (get_user_conversations db u page limit)))
    ≤ limit.
Proof.
  intros Hlimit.
  rewrite get_conversation_messages_data, get_messages_before_timestamp_data,
    get_user_conversations_data, !length_fmap.
  repeat split; try by apply slice_length_le.
  etrans; [apply inj_le, length_summaries|]. by apply slice_length_le.
Qed.

(** X2.  From page 1 on, a page of messages holds [limit] entries, or what is
    left of the matching set after the pages before it, or nothing. *)
Theorem page_of_messages_size db c t page limit :
  1 ≤ page → 0 ≤ limit →
  let msgs := get_conversation_messages db c page limit in
  let before := get_messages_before_timestamp db c t page limit in
  Z.of_nat (length (data msgs))
  = Z.min limit (Z.max 0 (total msgs - (page - 1) * limit))
  ∧ Z.of_nat (length (data before))
    = Z.min limit (Z.max 0 (total before - (page - 1) * limit)).
Proof.
  intros Hpage Hlimit msgs before. unfold msgs, before.
  rewrite get_conversation_messages_data, get_messages_before_timestamp_data,
    !length_fmap.
  split; by rewrite slice_window_length by nia.
Qed.

Lemma format_message_inj : Inj (=) (=) format_message.
Proof. intros [] [] Heq. by inversion Heq. Qed.

(** X3.  With pages of at least one entry and enough of them, the pages of
    [get_conversation_messages] taken together list every message row of
    the conversation once and none twice, newest first also from one
    page to the next. *)
Theorem pages_cover_the_conversation db c limit n :
  1 ≤ limit →
  total (get_conversation_messages db c 1 limit) ≤ Z.of_nat n * limit →
  let listed := all_pages (λ p, get_conversation_messages db c p limit) n in
  NoDup listed
  ∧ StronglySorted message_before listed
  ∧ Z.of_nat (length listed) = total (get_conversation_messages db c 1 limit)
  ∧ ∀ m, m ∈ listed
         ↔ m_conversation_id m = c
           ∧ messages db !! (c, m_created_at m, m_id m)
             = Some (m_sender_id m, m_receiver_id m, m_content m).
Proof.
  intros Hlimit Hn listed. unfold listed.
  rewrite (all_pages_whole format_message (select_messages db c)
             (λ p, get_conversation_messages db c p limit) limit n);
    [|lia|done|intros p; apply get_conversation_messages_data].
  split; [|split; [|split; [|intros m; split]]].
  - apply NoDup_fmap_2; [apply format_message_inj|].
    apply select_messages_NoDup.
  - apply (StronglySorted_fmap _ newest_first);
      [intros a b; apply format_message_before|].
    apply select_messages_newest_first.
  - by rewrite length_fmap.
  - intros (row & -> & [Hc Hrow]%elem_of_select_messages)%list_elem_of_fmap.
    simpl. split; [done|]. by rewrite <-Hc.
  - intros [Hc Hrow]. apply list_elem_of_fmap.
    exists {| msg_conversation_id := m_conversation_id m;
              msg_timestamp := m_created_at m; msg_message_id := m_id m;
              msg_sender_id := m_sender_id m;
              msg_receiver_id := m_receiver_id m;
              msg_content := m_content m |}.
    split; [by destruct m|]. apply elem_of_select_messages.
    simpl. split; [done|]. by rewrite Hc.
Qed.

End page_sizes.

(** ** What a new message changes, and what it leaves alone *)

Section message_effects.
Implicit Types (db : Store).

(** A partition is determined by the rows it holds. *)
Lemma select_messages_ext db db' c c' :
  (∀ row, row ∈ select_messages db c ↔ row ∈ select_messages db' c') →
  select_messages db c = select_messages db' c'.
Proof.
  intros Hsame.
  apply (StronglySorted_unique_strong newest_first);
    try apply select_messages_newest_first.
  - unfold newest_first. intros x1 x2 _ _ H1 H2. exfalso. lia.
  - apply NoDup_Permutation; [apply select_messages_NoDup..|done].
Qed.

Lemma select_messages_same_table db db' c :
  messages db' = messages db → select_messages db' c = select_messages db c.
Proof. unfold select_messages. by intros ->. Qed.

Lemma select_conversations_by_user_same_table db db' u :
  conversations_by_user db' = conversations_by_user db →
  select_conversations_by_user db' u = select_conversations_by_user db u.
Proof. unfold select_conversations_by_user. by intros ->. Qed.

(** The rows of a partition after [create_message]. *)
Lemma elem_of_select_messages_create db now mid s r txt c c' row :
  row ∈ select_messages (create_message db now mid s r txt c).2 c'
  ↔ (c' = c
     ∧ row = {| msg_conversation_id := c; msg_timestamp := now;
                msg_message_id := mid; msg_sender_id := s;
                msg_receiver_id := r; msg_content := txt |})
    ∨ (row ∈ select_messages db c'
       ∧ (msg_conversation_id row, msg_timestamp row, msg_message_id row)
         ≠ (c, now, mid)).
Proof.
  rewrite !elem_of_select_messages, create_message_messages.
  rewrite lookup_insert_Some. split.
  - intros [Hc [[Hkey Hval]|[Hkey Hrow]]]; [left|by right].
    destruct row; simpl in *. by simplify_eq.
  - intros [[-> ->]|[[Hc Hrow] Hkey]]; simpl; [by auto|].
    split; [done|]. by right.
Qed.

(** X4.  A message written to one conversation leaves every page of every
    other conversation, and the row of every other conversation, as they
    were. *)
Theorem create_message_leaves_other_conversations
    db now mid s r txt c c' t page limit :
  c' ≠ c →
  let db' := (create_message db now mid s r txt c).2 in
  get_conversation_messages db' c' page limit
  = get_conversation_messages db c' page limit
  ∧ get_messages_before_timestamp db' c' t page limit
    = get_messages_before_timestamp db c' t page limit
  ∧ get_conversation db' c' = get_conversation db c'.
Proof.
  intros Hne db'.
  assert (select_messages db' c' = select_messages db c') as Hsel.
  { apply select_messages_ext. intros row. unfold db'.
    rewrite elem_of_select_messages_create. split.
    - by intros [[? _]|[? _]].
    - intros Hrow. right. split; [done|].
      apply elem_of_select_messages in Hrow as [Hc _]. congruence. }
  unfold get_conversation_messages, get_messages_before_timestamp.
  rewrite Hsel. repeat split.
  rewrite !get_conversation_lookup. unfold db'.
  by rewrite create_message_conversations, lookup_insert_ne.
Qed.

(** X5.  [create_message] adds one message to the conversation, unless a
    message with the same timestamp and id is already there, which it
    then replaces. *)
Theorem create_message_total db now mid s r txt c page limit :
  total (get_conversation_messages
           (create_message db now mid s r txt c).2 c page limit)
  = match messages db !! (c, now, mid) with
    | Some _ => total (get_conversation_messages db c page limit)
    | None => total (get_conversation_messages db c page limit) + 1
    end.
Proof.
  unfold get_conversation_messages. cbn [total].
  rewrite !length_select_messages, create_message_messages.
  rewrite map_filter_insert_True by done.
  rewrite map_size_insert, map_lookup_filter.
  destruct (messages db !! (c, now, mid)) as [v|]; simpl; [|lia].
  by rewrite option_guard_True.
Qed.

(** X6.  A message with a timestamp above every timestamp of its conversation
    is the first entry of page 1. *)
Theorem create_message_newest_is_first db now mid s r txt c limit :
  (∀ t m v, messages db !! (c, t, m) = Some v → t < now) →
  1 ≤ limit →
  head (data (get_conversation_messages
                (create_message db now mid s r txt c).2 c 1 limit))
  = Some {| m_id := mid; m_conversation_id := c; m_sender_id := s;
            m_receiver_id := r; m_content := txt; m_created_at := now |}.
Proof.
  intros Hnewer Hlimit. rewrite get_conversation_messages_data.
  rewrite (slice_window _ ((1 - 1) * limit)) by lia.
  set (new := {| msg_conversation_id := c; msg_timestamp := now;
                 msg_message_id := mid; msg_sender_id := s;
                 msg_receiver_id := r; msg_content := txt |}).
  set (db' := (create_message db now mid s r txt c).2).
  assert (new ∈ select_messages db' c) as Hin.
  { apply elem_of_select_messages_create. by left. }
  assert (∀ row, row ∈ select_messages db' c →
                 row = new ∨ msg_timestamp row < now) as Hrows.
  { intros row [[_ ->]|[Hrow _]]%elem_of_select_messages_create; [by left|].
    right. apply elem_of_select_messages in Hrow as [Hc Hrow].
    rewrite Hc in Hrow. by eapply Hnewer. }
  pose proof (select_messages_newest_first db' c) as Hsorted.
  destruct (select_messages db' c) as [|first rows].
  { by apply elem_of_nil in Hin. }
  replace (Z.to_nat limit) with (S (Z.to_nat (limit - 1))) by lia.
  simpl. f_equal.
  destruct (Hrows first) as [->|Hold]; [by left|done|].
  apply elem_of_cons in Hin as [<-|Hin]; [done|].
  apply StronglySorted_inv in Hsorted as [_ Hfirst].
  eapply Forall_forall in Hfirst; [|exact Hin].
  unfold newest_first in Hfirst. simpl in Hfirst. lia.
Qed.

End message_effects.

(** ** The denormalised tables under sequential calls *)

Section denormalised.
Implicit Types (db : Store).

Lemma create_message_messages_by_user db now mid s r txt c :
  messages_by_user (create_message db now mid s r txt c).2
  = <[(r, c, now, mid) := (s, r, txt)]>
      (<[(s, c, now, mid) := (s, r, txt)]> (messages_by_user db)).
Proof. done. Qed.

(** [create_or_get_conversation] writes to [conversations] only, and
    there it leaves the rows it finds as they are. *)
Lemma create_or_get_conversation_tables db now a b :
  let db' := (create_or_get_conversation db now a b).2 in
  messages db' = messages db
  ∧ messages_by_user db' = messages_by_user db
  ∧ conversations_by_user db' = conversations_by_user db
  ∧ ∀ k cols, conversations db !! k = Some cols →
              conversations db' !! k = Some cols.
Proof.
  intros db'. unfold db'. lookup_cases db a b Hab Hba.
  - destruct (create_or_get_conversation_new db now a b Hab Hba)
      as [_ Hconvs].
    repeat split;
      try (unfold create_or_get_conversation; by rewrite Hab, Hba).
    intros k cols Hk. rewrite Hconvs.
    rewrite lookup_insert_ne; [done|].
    intros <-. by rewrite new_id_fresh in Hk.
  - destruct (create_or_get_conversation_existing db now a b) as [-> _];
      [right; by rewrite Hba|done].
  - destruct (create_or_get_conversation_existing db now a b) as [-> _];
      [left; by rewrite Hab|done].
Qed.

(** X7.  In every store that calls made one after the other produce, each
    message has its copy under the sender and under the receiver in
    [messages_by_user]. *)
Theorem reachable_fanned_out db : reachable db → fanned_out db.
Proof.
  induction 1 as [|db now a b _ IH|db now mid s r txt c _ IH].
  - intros c t m s r txt Hm. simpl in Hm. by rewrite lookup_empty in Hm.
  - destruct (create_or_get_conversation_tables db now a b)
      as (Hm & Hu & _).
    unfold fanned_out. by rewrite Hm, Hu.
  - intros c' t m s' r' txt'.
    rewrite create_message_messages, create_message_messages_by_user.
    rewrite lookup_insert_Some. intros [[Hkey Hval]|[Hkey Hold]].
    + simplify_eq. split.
      * destruct (decide (r' = s')) as [->|Hne];
          [by rewrite lookup_insert_eq|].
        rewrite lookup_insert_ne by congruence. by rewrite lookup_insert_eq.
      * by rewrite lookup_insert_eq.
    + destruct (IH _ _ _ _ _ _ Hold) as [Hs Hr].
      rewrite !lookup_insert_ne by congruence. done.
Qed.

(** In every such store each entry of the per-user index names a
    conversation that has its row. *)
Lemma reachable_index_backed db : reachable db → index_backed db.
Proof.
  induction 1 as [|db now a b _ IH|db now mid s r txt c _ IH].
  - intros u t c entry He. simpl in He. by rewrite lookup_empty in He.
  - destruct (create_or_get_conversation_tables db now a b)
      as (_ & _ & Hi & Hrows).
    intros u t c entry. rewrite Hi. intros [cols Hc]%IH.
    exists cols. by apply Hrows.
  - intros u t c' entry.
    rewrite create_message_conversations_by_user,
      create_message_conversations.
    destruct (decide (c' = c)) as [->|Hne].
    { intros _. rewrite lookup_insert_eq. by eexists. }
    rewrite !lookup_insert_ne by congruence. apply IH.
Qed.

Lemma summaries_all_backed db entries :
  (∀ conv, conv ∈ entries →
           is_Some (conversations db !! cbu_conversation_id conv)) →
  length (summaries db entries) = length entries.
Proof.
  unfold summaries. induction entries as [|conv l IH]; intros Hall;
    csimpl; [done|].
  destruct (Hall conv) as [cols ->]; [by left|]. simpl. f_equal.
  apply IH. intros conv' Hin. apply Hall. by right.
Qed.

Lemma index_backed_page db u start stop conv :
  index_backed db →
  conv ∈ Py.slice (select_conversations_by_user db u) start stop →
  is_Some (conversations db !! cbu_conversation_id conv).
Proof.
  intros Hback Hin.
  eapply elem_of_sublist in Hin; [|apply slice_sublist].
  apply elem_of_select_conversations_by_user in Hin as [_ Hin].
  by eapply Hback.
Qed.

(** X8.  In every store that calls made one after the other produce, no entry
    of a page of [get_user_conversations] is left out: from page 1 on a
    page holds [limit] entries, or what is left of the index after the
    pages before it, or nothing. *)
Theorem reachable_page_of_conversations_size db u page limit :
  reachable db → 1 ≤ page → 0 ≤ limit →
  let r := get_user_conversations db u page limit in
  Z.of_nat (length (data r))
  = Z.min limit (Z.max 0 (total r - (page - 1) * limit)).
Proof.
  intros Hdb Hpage Hlimit r. unfold r.
  rewrite get_user_conversations_data, summaries_all_backed.
  - by rewrite slice_window_length by nia.
  - intros conv. apply index_backed_page. by apply reachable_index_backed.
Qed.

(** X9.  Every entry that [get_user_conversations] lists is the conversation
    that [get_conversation] returns for its id: the last-message fields
    shown are those of the conversation row, not the copies of the
    index. *)
Theorem listed_conversation_is_the_row db u page limit conv :
  conv ∈ data (get_user_conversations db u page limit) →
  get_conversation db (c_id conv) = Some conv.
Proof.
  rewrite get_user_conversations_data. unfold summaries.
  intros (entry & _ & Hconv)%list_elem_of_omap.
  apply fmap_Some in Hconv as (cols & Hcols & ->). simpl.
  by rewrite get_conversation_lookup, Hcols.
Qed.

(** X10.  [create_or_get_conversation] changes no page of messages and no
    total of a conversation list, it leaves every conversation that had
    a row as [get_conversation] showed it, and, where every index entry
    has its conversation row, it changes no conversation list: a new
    conversation is listed for its users only once a message is sent. *)
Theorem create_or_get_conversation_leaves_reads
    db now a b c t u page limit :
  let db' := (create_or_get_conversation db now a b).2 in
  get_conversation_messages db' c page limit
  = get_conversation_messages db c page limit
  ∧ get_messages_before_timestamp db' c t page limit
    = get_messages_before_timestamp db c t page limit
  ∧ total (get_user_conversations db' u page limit)
    = total (get_user_conversations db u page limit)
  ∧ (∀ conv, get_conversation db c = Some conv →
             get_conversation db' c = Some conv)
  ∧ (index_backed db →
     get_user_conversations db' u page limit
     = get_user_conversations db u page limit).
Proof.
  intros db'.
  destruct (create_or_get_conversation_tables db now a b)
    as (Hm & _ & Hi & Hrows). fold db' in Hm, Hi, Hrows.
  pose proof (select_messages_same_table db db' c Hm) as Hsel.
  pose proof (select_conversations_by_user_same_table db db' u Hi) as Hidx.
  split; [|split; [|split; [|split]]].
  - unfold get_conversation_messages. by rewrite Hsel.
  - unfold get_messages_before_timestamp. by rewrite Hsel.
  - unfold get_user_conversations. cbn [total]. by rewrite Hidx.
  - intros conv. rewrite !get_conversation_lookup.
    intros (cols & Hcols & ->)%fmap_Some. by rewrite (Hrows _ _ Hcols).
  - intros Hback. unfold get_user_conversations. rewrite Hidx.
    rewrite !foldl_summaries. do 2 f_equal.
    set (page_entries := Py.slice _ _ _).
    assert (∀ conv, conv ∈ page_entries →
              is_Some (conversations db !! cbu_conversation_id conv))
      as Hall by (intros conv; by apply index_backed_page).
    unfold summaries. clearbody page_entries.
    induction page_entries as [|conv l IH]; [done|]. csimpl.
    destruct (Hall conv) as [cols Hcols]; [by left|].
    rewrite Hcols, (Hrows _ _ Hcols). simpl. f_equal.
    apply IH. intros conv' Hin. apply Hall. by right.
Qed.

End denormalised.

(** ** Conversations and sends *)

Section sends.
Implicit Types (db : Store).

(** X11.  After [create_message], [get_conversation] shows the message as the
    last one of its conversation and the participants the row had; when
    the conversation had no row the call creates one, without
    participants. *)
Theorem create_message_conversation_row db now mid s r txt c :
  get_conversation (create_message db now mid s r txt c).2 c
  = Some {| c_id := c;
            c_user1_id := conversations db !! c ≫= col_user1_id;
            c_user2_id := conversations db !! c ≫= col_user2_id;
            c_last_message_at := Some now;
            c_last_message_content := Some txt |}.
Proof.
  rewrite get_conversation_lookup, create_message_conversations.
  rewrite lookup_insert_eq. by destruct (conversations db !! c).
Qed.

(** X12.  The conversation [create_or_get_conversation] returns is the one
    [get_conversation] then returns for its id, field by field, whether
    it was found or created. *)
Theorem create_or_get_conversation_round_trip db now a b :
  let r := create_or_get_conversation db now a b in
  get_conversation r.2 (cf_id r.1)
  = Some {| c_id := cf_id r.1;
            c_user1_id := cf_user1_id r.1;
            c_user2_id := cf_user2_id r.1;
            c_last_message_at := cf_last_message_at r.1;
            c_last_message_content := cf_last_message_content r.1 |}.
Proof.
  intros r. unfold r.
  assert (∀ x y conv l, select_conversations_of_pair db x y = conv :: l →
            get_conversation db (conv_conversation_id conv)
            = Some (format_conversation conv)) as Hfound.
  { intros x y conv l Hsel.
    assert (conv ∈ select_conversations_of_pair db x y) as Hin
      by (rewrite Hsel; by left).
    apply elem_of_select_conversations_of_pair in Hin
      as (_ & _ & cols & Hcols & Hconv).
    rewrite get_conversation_lookup, Hcols. simpl. by rewrite Hconv at 2. }
  lookup_cases db a b Hab Hba.
  - destruct (create_or_get_conversation_new db now a b Hab Hba)
      as [_ Hconvs].
    rewrite get_conversation_lookup.
    unfold create_or_get_conversation in *. rewrite Hab, Hba in *.
    cbn [fst snd cf_id] in *. by rewrite Hconvs, lookup_insert_eq.
  - unfold create_or_get_conversation. rewrite Hab, Hba. simpl.
    by eapply Hfound.
  - unfold create_or_get_conversation. rewrite Hab. simpl.
    by eapply Hfound.
Qed.

Lemma send_message_None db now_conv now_msg mid s r txt :
  send_message db now_conv now_msg mid s r txt None
  = create_message (create_or_get_conversation db now_conv s r).2
      now_msg mid s r txt
      (cf_id (create_or_get_conversation db now_conv s r).1).
Proof.
  unfold send_message.
  by destruct (create_or_get_conversation db now_conv s r).
Qed.

(** X13.  On a store with one conversation row per pair, a send that names no
    conversation and a later one between the same two users, in either
    direction, land in the same conversation. *)
Theorem send_message_reuses_conversation
    db n1 n2 n3 n4 mid1 mid2 s r txt1 txt2 :
  one_conversation_per_pair db →
  let first := send_message db n1 n2 mid1 s r txt1 None in
  let reply := send_message first.2 n3 n4 mid2 r s txt2 None in
  let again := send_message first.2 n3 n4 mid2 s r txt2 None in
  cm_conversation_id reply.1 = cm_conversation_id first.1
  ∧ cm_conversation_id again.1 = cm_conversation_id first.1.
Proof.
  intros Hinv first reply again. unfold reply, again, first.
  rewrite !send_message_None.
  set (found := create_or_get_conversation db n1 s r).
  set (db' := (create_message found.2 n2 mid1 s r txt1 (cf_id found.1)).2).
  cbn [fst cm_conversation_id create_message].
  destruct (create_or_get_conversation_row db n1 s r)
    as (cols & Hcols & Hpair). fold found in Hcols.
  assert (one_conversation_per_pair db') as Hinv'.
  { by apply create_message_one_per_pair,
      create_or_get_conversation_one_per_pair. }
  assert (∃ cols', conversations db' !! cf_id found.1 = Some cols'
                   ∧ of_pair s r cols') as (cols' & Hcols' & Hpair').
  { unfold db'. rewrite create_message_conversations, lookup_insert_eq.
    eexists. split; [done|]. by rewrite Hcols. }
  split.
  - by apply (create_or_get_conversation_of_row db' n3 r s _ cols');
      [| |apply of_pair_sym].
  - by apply (create_or_get_conversation_of_row db' n3 s r _ cols').
Qed.

(** X14.  A message at a timestamp that the index of neither user holds yet for
    the conversation adds an entry to the conversation list of the
    sender and to that of the receiver. *)
Theorem create_message_grows_both_indexes db now mid s r txt c page limit :
  conversations_by_user db !! (s, now, c) = None →
  conversations_by_user db !! (r, now, c) = None →
  let db' := (create_message db now mid s r txt c).2 in
  total (get_user_conversations db' s page limit)
  = total (get_user_conversations db s page limit) + 1
  ∧ total (get_user_conversations db' r page limit)
    = total (get_user_conversations db r page limit) + 1.
Proof.
  intros Hs Hr db'. unfold get_user_conversations. cbn [total].
  rewrite !length_select_conversations_by_user. unfold db'.
  rewrite create_message_conversations_by_user.
  destruct (decide (r = s)) as [->|Hne].
  - rewrite insert_insert_eq, map_filter_insert_True by done.
    rewrite map_size_insert_None; [lia|].
    by rewrite map_lookup_filter_None_2; [|left].
  - split.
    + rewrite map_filter_insert_not by (intros y; simpl; congruence).
      rewrite map_filter_insert_True by done.
      rewrite map_size_insert_None; [lia|].
      by rewrite map_lookup_filter_None_2; [|left].
    + rewrite map_filter_insert_True by done.
      rewrite map_size_insert_None.
      * rewrite map_filter_insert_not by (intros y; simpl; congruence). lia.
      * apply map_lookup_filter_None_2. left.
        rewrite lookup_insert_ne by congruence. done.
Qed.

End sends.

(** ** Reads at the edges *)

Section edges.
Implicit Types (db : Store).

Lemma filter_all {A} (P : A → Prop) `{!∀ x, Decision (P x)} (l : list A) :
  Forall P l → filter P l = l.
Proof.
  induction 1 as [|x l Hx _ IH]; [done|].
  by rewrite filter_cons, decide_True, IH.
Qed.

Lemma slice_nil {A} start stop : Py.slice (@nil A) start stop = [].
Proof. unfold Py.slice. by rewrite drop_nil, take_nil. Qed.

(** X15.  With a bound above every timestamp of the conversation,
    [get_messages_before_timestamp] gives what
    [get_conversation_messages] gives, page by page. *)
Theorem before_a_late_bound_is_everything db c t page limit :
  (∀ ts m v, messages db !! (c, ts, m) = Some v → ts < t) →
  get_messages_before_timestamp db c t page limit
  = get_conversation_messages db c page limit.
Proof.
  intros Hbelow. unfold get_messages_before_timestamp,
    get_conversation_messages.
  rewrite filter_all; [done|].
  apply Forall_forall. intros row [Hc Hrow]%elem_of_select_messages.
  rewrite Hc in Hrow. by eapply Hbelow.
Qed.

(** X16.  The total of [get_messages_before_timestamp] grows with the bound
    and never exceeds the total of [get_conversation_messages]. *)
Theorem total_before_is_monotone db c t t' page limit :
  t ≤ t' →
  total (get_messages_before_timestamp db c t page limit)
  ≤ total (get_messages_before_timestamp db c t' page limit)
  ∧ total (get_messages_before_timestamp db c t' page limit)
    ≤ total (get_conversation_messages db c page limit).
Proof.
  intros Hle. unfold get_messages_before_timestamp,
    get_conversation_messages. cbn [total]. split.
  - apply inj_le.
    replace (filter (λ msg, msg_timestamp msg < t) (select_messages db c))
      with (filter (λ msg, msg_timestamp msg < t)
              (filter (λ msg, msg_timestamp msg < t')
                 (select_messages db c))).
    + apply length_filter.
    + rewrite list_filter_filter. apply list_filter_iff. intros row. lia.
  - apply inj_le. apply length_filter.
Qed.

(** X17.  A conversation id with no message, and a user id with no index
    entry, read as empty: total 0 and no data, for every page and limit,
    and no error. *)
Theorem unknown_ids_read_empty db c t u page limit :
  (∀ ts m, messages db !! (c, ts, m) = None) →
  (∀ ts c', conversations_by_user db !! (u, ts, c') = None) →
  get_conversation_messages db c page limit
  = {| total := 0; page := page; limit := limit; data := [] |}
  ∧ get_messages_before_timestamp db c t page limit
    = {| total := 0; page := page; limit := limit; data := [] |}
  ∧ get_user_conversations db u page limit
    = {| total := 0; page := page; limit := limit; data := [] |}.
Proof.
  intros Hmsgs Hidx.
  assert (select_messages db c = []) as Hsel.
  { destruct (select_messages db c) as [|row l] eqn:Heq; [done|].
    assert (row ∈ select_messages db c) as Hin by (rewrite Heq; by left).
    apply elem_of_select_messages in Hin as [Hc Hrow].
    by rewrite Hc, Hmsgs in Hrow. }
  assert (select_conversations_by_user db u = []) as Hsel'.
  { destruct (select_conversations_by_user db u) as [|row l] eqn:Heq;
      [done|].
    assert (row ∈ select_conversations_by_user db u) as Hin
      by (rewrite Heq; by left).
    apply elem_of_select_conversations_by_user in Hin as [Hu Hrow].
    by rewrite Hu, Hidx in Hrow. }
  unfold get_conversation_messages, get_messages_before_timestamp,
    get_user_conversations.
  rewrite Hsel, Hsel', filter_nil. simpl. by rewrite !slice_nil.
Qed.

End edges.

(** ** Waiting for the cluster *)

Section waiting.
Import Connection.

Lemma wait_attempts_first_ready ready first n slept k :
  (k < n)%nat →
  (∀ i, (first ≤ i < first + k)%nat → ready i = false) →
  ready (first + k)%nat = true →
  wait_attempts ready (seq first n) slept
  = (Ready (first + k), slept + 5 * Z.of_nat k).
Proof.
  revert first slept k. induction n as [|n IH]; intros first slept k Hk;
    [lia|].
  intros Hfail Hready. simpl. destruct k as [|k].
  - rewrite Nat.add_0_r in *. rewrite Hready. f_equal; (lia || (f_equal; lia)).
  - rewrite Hfail by lia.
    rewrite (IH (S first) (slept + 5) k); [|lia| |].
    + f_equal; (lia || (f_equal; lia)).
    + intros i Hi. apply Hfail. lia.
    + by replace (S first + k)%nat with (first + S k)%nat by lia.
Qed.

Lemma wait_attempts_none_ready ready first n slept :
  (∀ i, (first ≤ i < first + n)%nat → ready i = false) →
  wait_attempts ready (seq first n) slept
  = (Failed "Failed to connect to Cassandra", slept + 5 * Z.of_nat n).
Proof.
  revert first slept. induction n as [|n IH]; intros first slept Hfail; simpl.
  - f_equal; (lia || (f_equal; lia)).
  - rewrite Hfail by lia. rewrite IH.
    + f_equal; (lia || (f_equal; lia)).
    + intros i Hi. apply Hfail. lia.
Qed.

(** X18.  [wait_for_cassandra] returns the cluster of the first of its ten
    attempts that connects, after five seconds of sleep for each attempt
    that failed before it. *)
Theorem wait_for_cassandra_first_ready ready k :
  (k < 10)%nat →
  (∀ i, (i < k)%nat → ready i = false) →
  ready k = true →
  wait_for_cassandra ready = (Ready k, 5 * Z.of_nat k).
Proof.
  intros Hk Hfail Hready. unfold wait_for_cassandra.
  rewrite (wait_attempts_first_ready ready 0 10 0 k); [done|done| |done].
  intros i Hi. apply Hfail. lia.
Qed.

(** X19.  When none of the ten attempts connects, [wait_for_cassandra] raises,
    fifty seconds of sleep later: it sleeps after the last attempt too. *)
Theorem wait_for_cassandra_gives_up ready :
  (∀ i, (i < 10)%nat → ready i = false) →
  wait_for_cassandra ready = (Failed "Failed to connect to Cassandra", 50).
Proof.
  intros Hfail. unfold wait_for_cassandra.
  rewrite wait_attempts_none_ready; [done|].
  intros i Hi. apply Hfail. lia.
Qed.





(** X22.  With a negative retry delay the first failure of [connect] ends
    [connect_with_retry]: [time.sleep] raises. *)
Theorem connect_with_retry_negative_delay self connects fuel :
  retry_delay self < 0 →
  connects 0%nat = false →
  connect_with_retry self connects (S fuel) = Some (SleepRaised 1).
Proof.
  intros Hdelay Hfail. unfold connect_with_retry. simpl. rewrite Hfail.
  by destruct (Z.ltb_spec (retry_delay self) 0); [|lia].
Qed.

Lemma connect_with_retry_from_opens self connects fuel retries slept
    self' retries' slept' :
  connect_with_retry_from self connects fuel retries slept
  = Some (Returned self' retries' slept') →
  session self' = true.
Proof.
  revert retries slept. induction fuel as [|fuel IH]; intros retries slept;
    simpl; [done|].
  destruct (connects retries); [by intros [= <- _ _]|].
  destruct (retry_delay self <? 0); [done|]. apply IH.
Qed.

(** X23.  [get_session] never raises for want of a session: when it returns,
    the session it returns is open; and with a session open already it
    returns it without a call of [connect]. *)
Theorem get_session_is_open self connects fuel :
  (∀ message, get_session self connects fuel ≠ Some (NoSession message))
  ∧ (∀ self', get_session self connects fuel = Some (Open self') →
              session self' = true)
  ∧ (session self = true → get_session self connects 0 = Some (Open self)).
Proof.
  unfold get_session, connect_with_retry.
  destruct (session self) eqn:Hopen.
  { repeat split; [done|]. by intros self' [= <-]. }
  destruct (connect_with_retry_from self connects fuel 0 0)
    as [[self' retries slept|retries]|] eqn:Hloop; [|by repeat split..].
  apply connect_with_retry_from_opens in Hloop. rewrite Hloop.
  repeat split; [done| |done]. by intros self'' [= <-].
Qed.

End waiting.

(** ** The further theorems at concrete inputs *)

Lemma store_after_hello_messages :
  messages store_after_hello
  = <[(1, 201, 2%N) := (U2, U1, "hello")]>
      (<[(1, 101, 1%N) := (U1, U2, "hi")]> ∅).
Proof. vm_compute. reflexivity. Qed.

Lemma store_after_hello_index :
  conversations_by_user store_after_hello
  = <[(U1, 201, 1) := (U2, "hello")]>
      (<[(U2, 201, 1) := (U1, "hello")]>
         (<[(U2, 101, 1) := (U1, "hi")]>
            (<[(U1, 101, 1) := (U2, "hi")]> ∅))).
Proof. vm_compute. reflexivity. Qed.

Lemma store_after_hello_timestamps t m v :
  messages store_after_hello !! (1, t, m) = Some v → t < 300.
Proof.
  rewrite store_after_hello_messages, !lookup_insert_Some, lookup_empty.
  intros [[Hk _]|[_ [[Hk _]|[_ ?]]]]; [| |done]; inversion Hk; lia.
Qed.

Lemma page_holds_at_most_limit_witness :
  Z.of_nat (length (data (get_conversation_messages
                            store_after_hello 1 (-3) 1))) ≤ 1.
Proof.
  apply (page_holds_at_most_limit store_after_hello 1 201 U1 (-3) 1). lia.
Defined.

Lemma page_of_messages_size_witness :
  Z.of_nat (length (data (get_conversation_messages store_after_hello 1 2 1)))
  = Z.min 1
      (Z.max 0 (total (get_conversation_messages store_after_hello 1 2 1)
                - (2 - 1) * 1)).
Proof.
  apply (page_of_messages_size store_after_hello 1 201 2 1); lia.
Defined.

Lemma pages_cover_the_conversation_witness :
  NoDup (all_pages (λ p, get_conversation_messages store_after_hello 1 p 1) 2).
Proof.
  apply (pages_cover_the_conversation store_after_hello 1 1 2); [lia|].
  vm_compute. discriminate.
Defined.

Lemma create_message_leaves_other_conversations_witness :
  get_conversation_messages
    (create_message store_after_hello 300 3 U1 33 "hey" 2).2 1 1 20
  = get_conversation_messages store_after_hello 1 1 20.
Proof.
  apply (create_message_leaves_other_conversations
           store_after_hello 300 3 U1 33 "hey" 2 1 0 1 20). lia.
Defined.

Lemma create_message_newest_is_first_witness :
  head (data (get_conversation_messages
                (create_message store_after_hello 300 3 U1 U2 "bye" 1).2
                1 1 20))
  = Some {| m_id := 3; m_conversation_id := 1; m_sender_id := U1;
            m_receiver_id := U2; m_content := "bye"; m_created_at := 300 |}.
Proof.
  apply (create_message_newest_is_first
           store_after_hello 300 3 U1 U2 "bye" 1 20);
    [apply store_after_hello_timestamps|lia].
Defined.

Lemma reachable_fanned_out_witness : fanned_out store_after_hello.
Proof. apply reachable_fanned_out, reachable_store_after_hello. Defined.

Lemma reachable_page_of_conversations_size_witness :
  Z.of_nat (length (data (get_user_conversations store_after_hello U1 1 20)))
  = Z.min 20
      (Z.max 0 (total (get_user_conversations store_after_hello U1 1 20)
                - (1 - 1) * 20)).
Proof.
  apply (reachable_page_of_conversations_size store_after_hello U1 1 20);
    [apply reachable_store_after_hello|lia..].
Defined.

Lemma listed_conversation_is_the_row_witness :
  get_conversation store_after_hello 1
  = Some {| c_id := 1; c_user1_id := Some U1; c_user2_id := Some U2;
            c_last_message_at := Some 201;
            c_last_message_content := Some "hello" |}.
Proof.
  apply (listed_conversation_is_the_row store_after_hello U1 1 20
           {| c_id := 1; c_user1_id := Some U1; c_user2_id := Some U2;
              c_last_message_at := Some 201;
              c_last_message_content := Some "hello" |}).
  vm_compute. left.
Defined.

Lemma send_message_reuses_conversation_witness :
  cm_conversation_id
    (send_message (send_message empty_store 100 101 1%N U1 U2 "hi" None).2
       200 201 2%N U2 U1 "hello" None).1
  = cm_conversation_id
      (send_message empty_store 100 101 1%N U1 U2 "hi" None).1.
Proof.
  apply (send_message_reuses_conversation
           empty_store 100 101 200 201 1%N 2%N U1 U2 "hi" "hello").
  apply one_conversation_per_pair_empty.
Defined.

Lemma create_message_grows_both_indexes_witness :
  total (get_user_conversations
           (create_message store_after_hello 300 3 U1 U2 "bye" 1).2 U2 1 20)
  = total (get_user_conversations store_after_hello U2 1 20) + 1.
Proof.
  apply (create_message_grows_both_indexes
           store_after_hello 300 3 U1 U2 "bye" 1 1 20);
    vm_compute; reflexivity.
Defined.

Lemma before_a_late_bound_is_everything_witness :
  get_messages_before_timestamp store_after_hello 1 300 1 20
  = get_conversation_messages store_after_hello 1 1 20.
Proof.
  apply before_a_late_bound_is_everything, store_after_hello_timestamps.
Defined.

Lemma total_before_is_monotone_witness :
  total (get_messages_before_timestamp store_after_hello 1 150 1 20)
  ≤ total (get_messages_before_timestamp store_after_hello 1 250 1 20).
Proof.
  apply (total_before_is_monotone store_after_hello 1 150 250 1 20). lia.
Defined.

Lemma unknown_ids_read_empty_witness :
  get_conversation_messages store_after_hello 9 1 20
  = {| total := 0; MessageModel.page := 1; MessageModel.limit := 20;
       data := [] |}.
Proof.
  apply (unknown_ids_read_empty store_after_hello 9 0 99 1 20).
  - intros ts m. rewrite store_after_hello_messages.
    by rewrite !lookup_insert_ne, lookup_empty.
  - intros ts c. rewrite store_after_hello_index.
    by rewrite !lookup_insert_ne, lookup_empty.
Defined.

Lemma wait_for_cassandra_first_ready_witness :
  Connection.wait_for_cassandra (λ attempt, 3 <=? attempt)%nat
  = (Connection.Ready 3, 15).
Proof.
  apply (wait_for_cassandra_first_ready (λ attempt, 3 <=? attempt)%nat 3);
    [lia| |reflexivity].
  intros i Hi. apply Nat.leb_gt. lia.
Defined.

Lemma wait_for_cassandra_gives_up_witness :
  Connection.wait_for_cassandra (λ _, false)
  = (Connection.Failed "Failed to connect to Cassandra", 50).
Proof. apply wait_for_cassandra_gives_up. reflexivity. Defined.



Lemma connect_with_retry_negative_delay_witness :
  Connection.connect_with_retry
    {| Connection.host := "localhost"; Connection.port := 9042;
       Connection.keyspace := "messenger"; Connection.max_retries := 30;
       Connection.retry_delay := -1; Connection.session := false |}
    (λ _, false) 1
  = Some (Connection.SleepRaised 1).
Proof.
  apply connect_with_retry_negative_delay; [simpl; lia|reflexivity].
Defined.
